(** * Ticket assignment and daily digest: a shallow embedding

    This development embeds the two scripts of the repository,
    [scripts/assign_from_viber.py] and [scripts/daily_morning.py], and
    proves properties of the candidate ranking and assignment loop and of
    the digest formatter.

    Conventions.
    - Python [str] values are [string]s, read as byte sequences; ordering is
      the byte-wise lexicographic order, which on UTF-8 text coincides with
      Python's code point order.  Character classes ([str.strip],
      [str.lower], digits) are modelled on the ASCII range.
    - Python [int] values are [Z].
    - Exceptions are explicit: a fallible operation returns a [res].
    - JSON configuration objects that are only queried by key are [gmap]s;
      dictionaries whose insertion order is observed are ordered
      association lists ([odict]).
    - Records returned by the remote system are typed records with the
      fields requested in the corresponding call; a field that the remote
      system reports as [False] is [None]. *)

From Stdlib Require Import ZArith Ascii String List Bool Lia DecimalString.
From Stdlib Require OrderedTypeEx.
From stdpp Require Import base option list gmap strings sorting.

#[local] Open Scope string_scope.
#[local] Open Scope list_scope.
#[local] Open Scope Z_scope.

(* ===================================================================== *)
(** * Python primitives used by the scripts                               *)
(* ===================================================================== *)

Module Py.

(** The exception classes that the modelled code can meet.  [Fault]
    stands for a failure of a remote procedure call. *)
Inductive exn : Type :=
| IndexError | KeyError | ValueError | TypeError | OverflowError | EOFError
| Fault.

Inductive res (A : Type) : Type :=
| Ok (a : A)
| Raise (e : exn).
Arguments Ok {A} a.
Arguments Raise {A} e.

Definition code (c : ascii) : Z := Z.of_N (N_of_ascii c).

(** [str.isspace] on the ASCII range. *)
Definition is_space (c : ascii) : bool :=
  let n := code c in
  ((9 <=? n) && (n <=? 13)) || ((28 <=? n) && (n <=? 32)).

Definition is_digit (c : ascii) : bool :=
  let n := code c in (48 <=? n) && (n <=? 57).

Definition digit_val (c : ascii) : Z := code c - 48.

Fixpoint lstrip (s : string) : string :=
  match s with
  | String c s' => if is_space c then lstrip s' else s
  | EmptyString => EmptyString
  end.

Fixpoint rstrip (s : string) : string :=
  match s with
  | String c s' =>
      match rstrip s' with
      | EmptyString => if is_space c then EmptyString else String c EmptyString
      | r => String c r
      end
  | EmptyString => EmptyString
  end.

(** [s.strip()] *)
Definition strip (s : string) : string := rstrip (lstrip s).

Definition lower_ascii (c : ascii) : ascii :=
  let n := code c in
  if (65 <=? n) && (n <=? 90) then ascii_of_N (Z.to_N (n + 32)) else c.

(** [s.lower()] *)
Fixpoint lower (s : string) : string :=
  match s with
  | String c s' => String (lower_ascii c) (lower s')
  | EmptyString => EmptyString
  end.

(** Truth value of a string: the empty string is falsy. *)
Definition nonempty (s : string) : bool :=
  match s with EmptyString => false | _ => true end.

(** [str(n)] for an integer. *)
Definition str (n : Z) : string := NilZero.string_of_int (Z.to_int n).

(** Digits of an integer literal: decimal digits, where single
    underscores may separate digits.  [seen] tells whether the previous
    character was a digit. *)
Fixpoint int_digits (acc : Z) (seen : bool) (s : string) : option Z :=
  match s with
  | EmptyString => if seen then Some acc else None
  | String c s' =>
      if is_digit c then int_digits (10 * acc + digit_val c) true s'
      else if (Ascii.eqb c "_") && seen then int_digits acc false s'
      else None
  end.

(** [int(s)]: surrounding white space, an optional sign, digits.  The
    interpreter's cap on the number of digits is not modelled. *)
Definition int (s : string) : res Z :=
  let body :=
    match strip s with
    | String "+" r => int_digits 0 false r
    | String "-" r => Z.opp <$> int_digits 0 false r
    | r => int_digits 0 false r
    end in
  match body with Some n => Ok n | None => Raise ValueError end.

(** [l[i]] with Python's wrap-around of negative indices. *)
Definition getitem {A} (l : list A) (i : Z) : res A :=
  let n := Z.of_nat (length l) in
  let j := if i <? 0 then i + n else i in
  if (0 <=? j) && (j <? n)
  then match l !! Z.to_nat j with Some x => Ok x | None => Raise IndexError end
  else Raise IndexError.

(** [sorted(l, key=...)] and [l.sort(key=...)]: a stable sort that only
    uses the strict order [lt] between (the keys of) two elements.  An
    element is put in front of the first element of the sorted tail that
    is not smaller than it, so elements that compare equal keep their
    order. *)
Section Sorted.
Context {A : Type} (lt : A -> A -> bool).

Fixpoint insert (x : A) (l : list A) : list A :=
  match l with
  | [] => [x]
  | y :: l' => if lt y x then y :: insert x l' else x :: y :: l'
  end.

Definition sorted (l : list A) : list A := foldr insert [] l.
End Sorted.

(** A [dict] whose insertion order is observed: keys are kept in the
    order of their first insertion, assignment to a key that is present
    replaces the value in place. *)
Section OrderedDict.
Context {K V : Type} `{EqDecision K}.

Fixpoint od_get (d : list (K * V)) (k : K) : option V :=
  match d with
  | [] => None
  | (k', v) :: d' => if decide (k = k') then Some v else od_get d' k
  end.

Fixpoint od_set (d : list (K * V)) (k : K) (v : V) : list (K * V) :=
  match d with
  | [] => [(k, v)]
  | (k', v') :: d' =>
      if decide (k = k') then (k, v) :: d' else (k', v') :: od_set d' k v
  end.

Definition od_keys (d : list (K * V)) : list K := d.*1.
Definition od_values (d : list (K * V)) : list V := d.*2.
End OrderedDict.

End Py.

Import Py.

(* ===================================================================== *)
(** * [datetime]: the part used by the recency computation               *)
(* ===================================================================== *)

Module Datetime.

(** A [datetime] is kept as the number of microseconds that its own wall
    clock shows since 0001-01-01 00:00:00, with the UTC offset (in
    microseconds) of its [tzinfo] when it is aware, [None] when naive. *)
Record datetime : Type := { wall : Z; tzinfo : option Z }.

Definition us_per_day : Z := 86400 * 1000000.
Definition MAXORDINAL : Z := 3652059.
Definition max_wall : Z := MAXORDINAL * us_per_day - 1.

Definition is_leap (year : Z) : bool :=
  (year mod 4 =? 0) && (negb (year mod 100 =? 0) || (year mod 400 =? 0)).

Definition days_before_year (year : Z) : Z :=
  let y := year - 1 in y * 365 + y / 4 - y / 100 + y / 400.

Definition DAYS_IN_MONTH : list Z := [31; 28; 31; 30; 31; 30; 31; 31; 30; 31; 30; 31].

Definition days_in_month (year month : Z) : Z :=
  if (month =? 2) && is_leap year then 29
  else nth (Z.to_nat (month - 1)) DAYS_IN_MONTH 0.

Definition days_before_month (year month : Z) : Z :=
  fold_right Z.add 0 (firstn (Z.to_nat (month - 1)) DAYS_IN_MONTH)
  + (if (2 <? month) && is_leap year then 1 else 0).

Definition ymd2ord (year month day : Z) : Z :=
  days_before_year year + days_before_month year month + day.

(** [datetime(year, month, day, hour, minute, second)], naive. *)
Definition make (year month day hour minute second : Z) : res datetime :=
  if (1 <=? year) && (year <=? 9999) && (1 <=? month) && (month <=? 12)
     && (1 <=? day) && (day <=? days_in_month year month)
     && (0 <=? hour) && (hour <=? 23) && (0 <=? minute) && (minute <=? 59)
     && (0 <=? second) && (second <=? 59)
  then Ok {| wall := (((ymd2ord year month day - 1) * 86400
                       + hour * 3600 + minute * 60 + second) * 1000000);
             tzinfo := None |}
  else Raise ValueError.

(** ** [datetime.strptime(s, "%Y-%m-%d %H:%M:%S")]

    The library turns the format into a regular expression and matches it
    with a backtracking matcher; a field is a list of alternatives tried
    from left to right.  A matcher returns its successes in that order. *)
Definition matcher (A : Type) : Type := string -> list (A * string).

Definition two (p : Z -> Z -> bool) : matcher Z := fun s =>
  match s with
  | String a (String b r) =>
      if is_digit a && is_digit b && p (digit_val a) (digit_val b)
      then [(10 * digit_val a + digit_val b, r)] else []
  | _ => []
  end.

Definition one (p : Z -> bool) : matcher Z := fun s =>
  match s with
  | String a r => if is_digit a && p (digit_val a) then [(digit_val a, r)] else []
  | _ => []
  end.

Definition alt {A} (m1 m2 : matcher A) : matcher A := fun s => m1 s ++ m2 s.

Definition lit (c : ascii) : matcher unit := fun s =>
  match s with
  | String a r => if Ascii.eqb a c then [(tt, r)] else []
  | _ => []
  end.

Definition seq {A B} (m : matcher A) (k : A -> matcher B) : matcher B := fun s =>
  flat_map (fun '(a, r) => k a r) (m s).

(** [\d\d\d\d] *)
Definition re_Y : matcher Z := fun s =>
  match s with
  | String a (String b (String c (String d r))) =>
      if is_digit a && is_digit b && is_digit c && is_digit d
      then [(1000 * digit_val a + 100 * digit_val b + 10 * digit_val c + digit_val d, r)]
      else []
  | _ => []
  end.

(** [1[0-2]|0[1-9]|[1-9]] *)
Definition re_m : matcher Z :=
  alt (two (fun a b => (a =? 1) && (b <=? 2)))
 (alt (two (fun a b => (a =? 0) && (1 <=? b)))
      (one (fun a => 1 <=? a))).

(** [3[0-1]|[1-2]\d|0[1-9]|[1-9]| [1-9]] *)
Definition re_d : matcher Z :=
  alt (two (fun a b => (a =? 3) && (b <=? 1)))
 (alt (two (fun a _ => (1 <=? a) && (a <=? 2)))
 (alt (two (fun a b => (a =? 0) && (1 <=? b)))
 (alt (one (fun a => 1 <=? a))
      (seq (lit " ") (fun _ => one (fun a => 1 <=? a)))))).

(** [2[0-3]|[0-1]\d|\d] *)
Definition re_H : matcher Z :=
  alt (two (fun a b => (a =? 2) && (b <=? 3)))
 (alt (two (fun a _ => a <=? 1))
      (one (fun _ => true))).

(** [[0-5]\d|\d] *)
Definition re_M : matcher Z :=
  alt (two (fun a _ => a <=? 5)) (one (fun _ => true)).

(** [6[0-1]|[0-5]\d|\d] *)
Definition re_S : matcher Z :=
  alt (two (fun a b => (a =? 6) && (b <=? 1)))
 (alt (two (fun a _ => a <=? 5))
      (one (fun _ => true))).

(** [\s+], greedy: the longest run first, then shorter ones. *)
Fixpoint re_spaces_from (s : string) : list (unit * string) :=
  match s with
  | String a r => if is_space a then re_spaces_from r ++ [(tt, r)] else []
  | EmptyString => []
  end.
Definition re_spaces : matcher unit := re_spaces_from.

Definition format_regex : matcher (Z * Z * Z * Z * Z * Z) :=
  seq re_Y (fun year => seq (lit "-") (fun _ =>
  seq re_m (fun month => seq (lit "-") (fun _ =>
  seq re_d (fun day => seq re_spaces (fun _ =>
  seq re_H (fun hour => seq (lit ":") (fun _ =>
  seq re_M (fun minute => seq (lit ":") (fun _ =>
  seq re_S (fun second => fun r =>
    [((year, month, day, hour, minute, second), r)]))))))))))).

Definition strptime (data_string : string) : res datetime :=
  match format_regex data_string with
  | ((year, month, day, hour, minute, second), EmptyString) :: _ =>
      make year month day hour minute second
  | _ => Raise ValueError
  end.

(** [datetime.now(timezone.utc)] when the clock shows [clock]
    microseconds since 0001-01-01 00:00:00 UTC. *)
Definition now_utc (clock : Z) : datetime := {| wall := clock; tzinfo := Some 0 |}.

(** [dt - timedelta(days=days)] *)
Definition sub_days (dt : datetime) (days : Z) : res datetime :=
  if Z.abs days <=? 999999999 then
    let w := wall dt - days * us_per_day in
    if (0 <=? w) && (w <=? max_wall)
    then Ok {| wall := w; tzinfo := tzinfo dt |}
    else Raise OverflowError
  else Raise OverflowError.

(** [a >= b]: an order comparison between a naive and an aware value
    raises [TypeError]. *)
Definition ge (a b : datetime) : res bool :=
  match tzinfo a, tzinfo b with
  | None, None => Ok (wall b <=? wall a)
  | Some oa, Some ob => Ok (wall b - ob <=? wall a - oa)
  | _, _ => Raise TypeError
  end.

End Datetime.

Import Datetime.

(* ===================================================================== *)
(** * [scripts/assign_from_viber.py]                                      *)
(* ===================================================================== *)

Module AssignFromViber.

(** ** Records of the remote system *)

(** [project.task], as returned by the lookup by reference code. *)
Record task : Type := {
  t_id : Z;
  t_name : string;
  t_project_id : option (Z * string);
  t_user_id : option (Z * string);
  t_priority : string;
}.

(** [project.task] with the fields [id], [user_id], [write_date]. *)
Record open_task : Type := {
  o_id : Z;
  o_user_id : option (Z * string);
  o_write_date : option string;
}.

(** [project.task.type] *)
Record stage : Type := { s_id : Z; s_name : string }.

(** [res.users] with the fields [id], [name], [login], [email]. *)
Record user : Type := {
  u_id : Z;
  u_name : string;
  u_login : option string;
  u_email : option string;
}.

(** The dictionaries built in the candidate loop of [main]. *)
Record candidate : Type := {
  c_id : Z;
  c_name : string;
  c_login : option string;
  c_email : option string;
  c_role : string;
  c_count : Z;
  c_recent : bool;
}.

(** The keys of the configuration file read by [main]. *)
Record config : Type := {
  open_stage_names : list string;
  preferred_developers : gmap string (list string);
  developer_roles : gmap string string;
  recent_days : Z;
}.

(** ** Pure helpers *)

Definition pick_project_key (preferred_map : gmap string (list string))
    (project_id : Z) (project_name : string) : option string :=
  if decide (is_Some (preferred_map !! project_name)) then Some project_name
  else
    let pid := str project_id in
    if decide (is_Some (preferred_map !! pid)) then Some pid
    else if decide (is_Some (preferred_map !! "default")) then Some "default"
    else None.

(** The loop of [resolve_role] over the tuple [(name, login, email)]. *)
Fixpoint first_role (role_map : gmap string string) (keys : list (option string))
    : string :=
  match keys with
  | [] => "-"
  | key :: keys' =>
      match key with
      | Some k =>
          if nonempty k then
            match role_map !! k with
            | Some role => role
            | None => first_role role_map keys'
            end
          else first_role role_map keys'
      | None => first_role role_map keys'
      end
  end.

Definition resolve_role (role_map : gmap string string) (user_rec : user) : string :=
  if decide (role_map = ∅) then "-"
  else first_role role_map [Some (u_name user_rec); u_login user_rec; u_email user_rec].

(** ** Workload aggregation (the loop over [open_tasks], lines 218-234) *)

(** The body of the [try]: parse the timestamp and compare it with the
    cut-off. *)
Definition within_window (cutoff : datetime) (wdate : string) : res bool :=
  match strptime wdate with
  | Ok dt => ge dt cutoff
  | Raise e => Raise e
  end.

Definition aggregate_step (cutoff : datetime)
    (acc : list (Z * Z) * list (Z * bool)) (t : open_task)
    : list (Z * Z) * list (Z * bool) :=
  let '(counts, recent) := acc in
  match o_user_id t with
  | None => (counts, recent)
  | Some (uid_val, uname) =>
      let counts := od_set counts uid_val (default 0 (od_get counts uid_val) + 1) in
      match o_write_date t with
      | Some wdate =>
          if nonempty wdate then
            match within_window cutoff wdate with
            | Ok true => (counts, od_set recent uid_val true)
            | Ok false => (counts, recent)
            | Raise _ => (counts, recent)
            end
          else (counts, recent)
      | None => (counts, recent)
      end
  end.

Definition aggregate (cutoff : datetime) (open_tasks : list open_task)
    : list (Z * Z) * list (Z * bool) :=
  fold_left (aggregate_step cutoff) open_tasks ([], []).

(** ** Candidates *)

(** [[u["id"] for u in resolved.values() if u]] *)
Definition preferred_ids_of (resolved : list (string * option user)) : list Z :=
  omap (fun v => u_id <$> v) (od_values resolved).

(** [[k for k, v in resolved.items() if v is None]] *)
Definition missing_of (resolved : list (string * option user)) : list string :=
  omap (fun '(k, v) => match v with None => Some k | Some _ => None end) resolved.

(** [preferred_ids if preferred_ids else list(counts.keys())] *)
Definition candidate_ids (preferred_ids : option (list Z)) (counts : list (Z * Z))
    : list Z :=
  match preferred_ids with
  | Some (id :: ids) => id :: ids
  | _ => od_keys counts
  end.

Definition enrich (role_map : gmap string string) (counts : list (Z * Z))
    (recent : list (Z * bool)) (u : user) : candidate :=
  let uid_val := u_id u in
  {| c_id := uid_val;
     c_name := u_name u;
     c_login := u_login u;
     c_email := u_email u;
     c_role := resolve_role role_map u;
     c_count := default 0 (od_get counts uid_val);
     c_recent := default false (od_get recent uid_val) |}.

(** The sort key [(-x["count"], x["name"])] and the order of tuples. *)
Definition sort_key (c : candidate) : Z * string := (- c_count c, c_name c).

Definition key_lt (a b : Z * string) : bool :=
  (a.1 <? b.1) || ((a.1 =? b.1) && String.ltb a.2 b.2).

Definition cand_lt (a b : candidate) : bool := key_lt (sort_key a) (sort_key b).

(** [candidates.sort(key=lambda x: (-x["count"], x["name"]))] *)
Definition rank (candidates : list candidate) : list candidate :=
  sorted cand_lt candidates.

(** ** The remote record gateway, the console and the loop of [main] *)

(** The calls that [main] makes through [search_read], [read] and
    [write], one field per call site; [W] is the state of the remote
    system.  Searches and reads do not change it. *)
Record Gateway (W : Type) : Type := {
  (** [project.task], domain [[("code", "=", code)]] *)
  search_tasks_by_code : W -> string -> res (list task);
  (** [project.task.type], domain [[("name", "in", names)]] *)
  search_stages_by_name : W -> list string -> res (list stage);
  (** [project.task.type], domain [[("fold", "=", False)]] *)
  search_stages_unfolded : W -> res (list stage);
  (** [project.task], domain [project_id = p], [stage_id in ids],
      [user_id != False] *)
  search_open_tasks : W -> Z -> list Z -> res (list open_task);
  (** [res.users], login, email or name equal to the identifier, [limit=1] *)
  search_user : W -> string -> res (list user);
  (** [read] on [res.users] *)
  read_users : W -> list Z -> res (list user);
  (** [write] of [{"user_id": uid}] on one [project.task] *)
  write_assignee : W -> Z -> Z -> res bool * W;
  (** the clock, in microseconds since 0001-01-01 00:00:00 UTC *)
  clock : W -> Z;
}.
Arguments search_tasks_by_code {W} _ _ _.
Arguments search_stages_by_name {W} _ _ _.
Arguments search_stages_unfolded {W} _ _.
Arguments search_open_tasks {W} _ _ _ _.
Arguments search_user {W} _ _ _.
Arguments read_users {W} _ _ _.
Arguments write_assignee {W} _ _ _ _.
Arguments clock {W} _ _.

(** What reaches standard output. *)
Inductive printed : Type :=
| Line (s : string)          (** a [print] of one line *)
| Prompt (s : string)        (** the prompt of an [input] *)
| Taskss (ts : list task).   (** the [print("taskss", tasks)] of the lookup *)

Section Run.
Context {W : Type} (gw : Gateway W) (cfg : config) (dry_run : bool).

(** The state threaded through a run: the remote system, the lines
    still to be read from standard input, what was printed, and the
    log of the [write] calls issued (ticket id, user id). *)
Record St : Type := {
  world : W;
  stdin : list string;
  stdout : list printed;
  writes : list (Z * Z);
}.

Definition M (A : Type) : Type := St -> res A * St.

Definition ret {A} (a : A) : M A := fun st => (Ok a, st).

Definition bind {A B} (m : M A) (k : A -> M B) : M B := fun st =>
  match m st with
  | (Ok a, st') => k a st'
  | (Raise e, st') => (Raise e, st')
  end.

Notation "'do' x <- m ; k" := (bind m (fun x => k))
  (at level 10, x name, m at level 99, k at level 200).
Notation "m >> k" := (bind m (fun _ => k))
  (at level 100, k at level 200, right associativity).

Definition emit (p : printed) (st : St) : St :=
  {| world := world st; stdin := stdin st;
     stdout := stdout st ++ [p]; writes := writes st |}.

Definition print (s : string) : M unit := fun st => (Ok tt, emit (Line s) st).

Fixpoint print_all (ls : list string) : M unit :=
  match ls with
  | [] => ret tt
  | l :: ls' => print l >> print_all ls'
  end.

(** [input(prompt)]; the end of the input raises [EOFError]. *)
Definition input (prompt : string) : M string := fun st =>
  let st := emit (Prompt prompt) st in
  match stdin st with
  | [] => (Raise EOFError, st)
  | l :: rest =>
      (Ok l, {| world := world st; stdin := rest;
                stdout := stdout st; writes := writes st |})
  end.

(** A search or a read. *)
Definition query {A} (q : W -> res A) : M A := fun st => (q (world st), st).

(** [write(models, db, uid, password, "project.task", [tid], {"user_id": uid})] *)
Definition write (tid uid : Z) : M bool := fun st =>
  let '(r, w) := write_assignee gw (world st) tid uid in
  (r, {| world := w; stdin := stdin st; stdout := stdout st;
         writes := writes st ++ [(tid, uid)] |}).

Definition pair_name (p : option (Z * string)) : string :=
  match p with Some (_, n) => n | None => "-" end.

(** [tasks[int(sel) - 1]] and [candidates[int(sel) - 1]] *)
Definition pick {A} (l : list A) (sel : string) : res A :=
  match int sel with
  | Ok n => getitem l (n - 1)
  | Raise e => Raise e
  end.

(** Lines 152-176 of [main]: lookup of the ticket and choice among
    several matches; [None] is the [continue] of the loop. *)
Definition select_task (code : string) : M (option task) :=
  print (String "010" ("=== " +:+ code +:+ " ===")) >>
  do tasks <- query (fun w => search_tasks_by_code gw w code);
  (fun st => (Ok tt, emit (Taskss tasks) st)) >>
  match tasks with
  | [] => print "No task found" >> ret None
  | [t] => ret (Some t)
  | _ =>
      print "Multiple tasks found:" >>
      print_all (imap (fun i t =>
        str (Z.of_nat i + 1) +:+ ". " +:+ str (t_id t) +:+ " | " +:+ t_name t
        +:+ " | Project: " +:+ pair_name (t_project_id t)
        +:+ " | Assigned: " +:+ pair_name (t_user_id t)) tasks) >>
      do sel <- input "Select task number: ";
      match pick tasks (strip sel) with
      | Ok t => ret (Some t)
      | Raise _ => print "Invalid selection, skipping" >> ret None
      end
  end.

(** Lines 187-208 of [main]: resolution of the open stages; [None] is
    the [continue]. *)
Definition resolve_open_stages : M (option (list Z)) :=
  do stage_id_list <-
    match open_stage_names cfg with
    | [] => ret []
    | names =>
        do stage_ids <- query (fun w => search_stages_by_name gw w names);
        ret (s_id <$> stage_ids)
    end;
  match stage_id_list with
  | [] =>
      do stage_ids <- query (search_stages_unfolded gw);
      match s_id <$> stage_ids with
      | [] => print "No open stages found; skipping" >> ret None
      | ids => ret (Some ids)
      end
  | ids => ret (Some ids)
  end.

(** Lines 210-234 of [main]: the open tickets of the project and their
    aggregation. *)
Definition workload (project_id : Z) (stage_id_list : list Z)
    : M (list (Z * Z) * list (Z * bool)) :=
  do open_tasks <- query (fun w => search_open_tasks gw w project_id stage_id_list);
  do cutoff <- query (fun w => sub_days (now_utc (clock gw w)) (recent_days cfg));
  ret (aggregate cutoff open_tasks).

Fixpoint resolve_users_from (resolved : list (string * option user))
    (identifiers : list string) : M (list (string * option user)) :=
  match identifiers with
  | [] => ret resolved
  | ident :: rest =>
      do users <- query (fun w => search_user gw w ident);
      resolve_users_from (od_set resolved ident (head users)) rest
  end.

Definition resolve_users (identifiers : list string)
    : M (list (string * option user)) :=
  resolve_users_from [] identifiers.

(** Lines 236-244 of [main]: the preferred developers of the project,
    [preferred_ids]. *)
Definition preferred (project_id : Z) (project_name : string)
    : M (option (list Z)) :=
  match pick_project_key (preferred_developers cfg) project_id project_name with
  | Some pref_key =>
      if nonempty pref_key then
        do identifiers <-
          query (fun _ => match preferred_developers cfg !! pref_key with
                          | Some l => Ok l
                          | None => Raise KeyError
                          end);
        do resolved <- resolve_users identifiers;
        match missing_of resolved with
        | [] => ret tt
        | missing =>
            print ("Preferred devs not found: " +:+ String.concat ", " missing)
        end >>
        ret (Some (preferred_ids_of resolved))
      else ret None
  | None => ret None
  end.

Definition candidate_line (i : nat) (c : candidate) : string :=
  str (Z.of_nat i + 1) +:+ ". " +:+ c_name c +:+ " | " +:+ c_role c
  +:+ " | open tasks in project: " +:+ str (c_count c)
  +:+ (if c_recent c then " recent" else "").

(** Lines 252-275 of [main]: reading, enriching, ranking and listing the
    candidates. *)
Definition present (task : task) (project_name : string)
    (counts : list (Z * Z)) (recent : list (Z * bool)) (ids : list Z)
    : M (list candidate) :=
  do cand_records <- query (fun w => read_users gw w ids);
  let candidates := rank (enrich (developer_roles cfg) counts recent <$> cand_records) in
  print ("Task: " +:+ t_name task) >>
  print ("Project: " +:+ project_name +:+ " | Priority: " +:+ t_priority task
         +:+ " | Current: " +:+ pair_name (t_user_id task)) >>
  print "Candidates (most project tasks first):" >>
  print_all (imap candidate_line candidates) >>
  ret candidates.

(** Lines 277-288 of [main]: the confirm-or-override prompt; [None] is
    the [continue]. *)
Definition choose (candidates : list candidate) : M (option candidate) :=
  do top <- query (fun _ => getitem candidates 0);
  do yn <- input ("Assign to " +:+ c_name top +:+ "? [y/N] ");
  if String.eqb (lower (strip yn)) "y" then ret (Some top)
  else
    do sel <- input "Enter candidate number to assign (or blank to skip): ";
    let sel := strip sel in
    if nonempty sel then
      match pick candidates sel with
      | Ok top => ret (Some top)
      | Raise _ => print "Invalid selection, skipped" >> ret None
      end
    else print "Skipped" >> ret None.

(** Lines 290-298 of [main]: the dry-run report or the write. *)
Definition commit (task : task) (top : candidate) : M unit :=
  if dry_run then
    print ("Dry-run: would assign task " +:+ str (t_id task) +:+ " to " +:+ c_name top)
  else
    do ok <- write (t_id task) (c_id top);
    if ok then print ("Assigned to " +:+ c_name top) else print "Assign failed".

(** Lines 248-298 of [main]: from the candidate ids on. *)
Definition assign_among (task : task) (project_name : string)
    (counts : list (Z * Z)) (recent : list (Z * bool)) (ids : list Z) : M unit :=
  match ids with
  | [] => print "No candidates found"
  | _ =>
      do candidates <- present task project_name counts recent ids;
      do choice <- choose candidates;
      match choice with
      | Some top => commit task top
      | None => ret tt
      end
  end.

(** Lines 210-298 of [main]: from the open stages on. *)
Definition assign_with_stages (task : task) (project_id : Z) (project_name : string)
    (stage_id_list : list Z) : M unit :=
  do w <- workload project_id stage_id_list;
  do preferred_ids <- preferred project_id project_name;
  assign_among task project_name w.1 w.2 (candidate_ids preferred_ids w.1).

(** Lines 178-298 of [main]: the body of the loop once the ticket is
    chosen. *)
Definition assign_task (task : task) : M unit :=
  match t_project_id task with
  | None => print "Task has no project; skipping"
  | Some (project_id, project_name) =>
      do stages <- resolve_open_stages;
      match stages with
      | None => ret tt
      | Some stage_id_list =>
          assign_with_stages task project_id project_name stage_id_list
      end
  end.

Definition process_code (code : string) : M unit :=
  do found <- select_task code;
  match found with
  | Some task => assign_task task
  | None => ret tt
  end.

(** The loop [for code in codes: ...] of [main]; an exception that
    escapes the body ends the run. *)
Fixpoint run_codes (codes : list string) : M unit :=
  match codes with
  | [] => ret tt
  | code :: rest => process_code code >> run_codes rest
  end.

End Run.

Arguments St W : clear implicits.
Arguments M W A : clear implicits.
Arguments world {W} _.
Arguments stdin {W} _.
Arguments stdout {W} _.
Arguments writes {W} _.

End AssignFromViber.

(* ===================================================================== *)
(** * [scripts/daily_morning.py]: grouping and rendering                  *)
(* ===================================================================== *)

Module DailyMorning.

(** [project.task] with the fields used by the listing. *)
Record task : Type := {
  t_code : option string;
  t_name : option string;
  t_project_id : option (Z * string);
}.

(** [project[1] if project else "No Project"] *)
Definition group_name (t : task) : string :=
  match t_project_id t with
  | Some (_, pname) => pname
  | None => "No Project"
  end.

(** [grouped.setdefault(pname, []).append(t)] *)
Definition add_to_group (grouped : list (string * list task)) (t : task)
    : list (string * list task) :=
  let pname := group_name t in
  od_set grouped pname (default [] (od_get grouped pname) ++ [t]).

Definition group (tasks : list task) : list (string * list task) :=
  fold_left add_to_group tasks [].

(** [x or "-"] *)
Definition or_dash (o : option string) : string :=
  match o with
  | Some s => if nonempty s then s else "-"
  | None => "-"
  end.

Definition task_line (pname : string) (t : task) : string :=
  or_dash (t_code t) +:+ " - " +:+ pname +:+ " - " +:+ or_dash (t_name t).

(** The lines printed for one group: its header, its tickets, a blank
    line. *)
Definition group_lines (grouped : list (string * list task)) (pname : string)
    : list string :=
  pname :: (task_line pname <$> default [] (od_get grouped pname)) ++ [""].

(** [sorted(grouped.keys())] *)
Definition headers (grouped : list (string * list task)) : list string :=
  sorted String.ltb (od_keys grouped).

(** Lines 104-127 of [main]: the lines printed from the grouping on;
    [date_str] is the formatted date of the header and [by_] the
    signature. *)
Definition digest (date_str by_ : string) (tasks : list task) : list string :=
  let grouped := group tasks in
  [date_str +:+ " To Do List By " +:+ by_; ""]
  ++ mjoin (group_lines grouped <$> headers grouped).

End DailyMorning.

(* ===================================================================== *)
(** * An in-memory remote system                                          *)
(* ===================================================================== *)

(** A small stand-in for the remote system, on which the loop can be run:
    one table of tickets, one of stages, one of users.  A write succeeds
    and sets the assignee of the ticket. *)
Module Memory.
Import AssignFromViber.

Record ticket : Type := {
  k_code : string;
  k_task : task;
  k_stage : Z;
  k_write_date : option string;
}.

Record db : Type := {
  db_tickets : list ticket;
  db_stages : list (stage * bool);
  db_users : list user;
  db_clock : Z;
}.

Definition as_open (k : ticket) : open_task :=
  {| o_id := t_id (k_task k);
     o_user_id := t_user_id (k_task k);
     o_write_date := k_write_date k |}.

Definition is_open_in (project_id : Z) (stage_ids : list Z) (k : ticket) : bool :=
  match t_project_id (k_task k), t_user_id (k_task k) with
  | Some (p, _), Some _ => (p =? project_id) && bool_decide (k_stage k ∈ stage_ids)
  | _, _ => false
  end.

Definition matches (ident : string) (u : user) : bool :=
  bool_decide (u_login u = Some ident) || bool_decide (u_email u = Some ident)
  || bool_decide (u_name u = ident).

Definition assign (tid uid : Z) (users : list user) (k : ticket) : ticket :=
  if t_id (k_task k) =? tid then
    {| k_code := k_code k;
       k_task := {| t_id := tid;
                    t_name := t_name (k_task k);
                    t_project_id := t_project_id (k_task k);
                    t_user_id :=
                      Some (uid, default "" (u_name <$> head (filter (fun u => u_id u = uid) users)));
                    t_priority := t_priority (k_task k) |};
       k_stage := k_stage k;
       k_write_date := k_write_date k |}
  else k.

Definition gateway : Gateway db := {|
  search_tasks_by_code w code :=
    Ok (k_task <$> filter (fun k => k_code k = code) (db_tickets w));
  search_stages_by_name w names :=
    Ok (fst <$> filter (fun s => s_name s.1 ∈ names) (db_stages w));
  search_stages_unfolded w :=
    Ok (fst <$> filter (fun s => s.2 = false) (db_stages w));
  search_open_tasks w project_id stage_ids :=
    Ok (as_open <$> List.filter (is_open_in project_id stage_ids) (db_tickets w));
  search_user w ident := Ok (take 1 (List.filter (matches ident) (db_users w)));
  read_users w ids :=
    Ok (mjoin ((fun i => filter (fun u => u_id u = i) (db_users w)) <$> ids));
  write_assignee w tid uid :=
    (Ok true, {| db_tickets := assign tid uid (db_users w) <$> db_tickets w;
                 db_stages := db_stages w;
                 db_users := db_users w;
                 db_clock := db_clock w |});
  clock := db_clock;
|}.

(** ** A sample project *)

Definition ann : user :=
  {| u_id := 5; u_name := "Ann"; u_login := Some "ann"; u_email := Some "ann@example.org" |}.
Definition bob : user :=
  {| u_id := 7; u_name := "Bob"; u_login := Some "bob"; u_email := None |}.
Definition cy : user :=
  {| u_id := 9; u_name := "Cy"; u_login := Some "cy"; u_email := Some "cy@example.org" |}.

Definition mk_ticket (code : string) (id : Z) (name : string)
    (assignee : option (Z * string)) (stage : Z) (wdate : option string) : ticket :=
  {| k_code := code;
     k_task := {| t_id := id; t_name := name; t_project_id := Some (42, "Alpha");
                  t_user_id := assignee; t_priority := "1" |};
     k_stage := stage;
     k_write_date := wdate |}.

(** 3 November 2026, 12:00:00 UTC. *)
Definition noon : Z := ((739923 - 1) * 86400 + 12 * 3600) * 1000000.

Definition alpha : db :=
  {| db_tickets :=
       [ mk_ticket "TSK-AB-1" 100 "Fix login" None 1 (Some "2026-11-01 08:00:00");
         mk_ticket "TSK-AB-2" 101 "Export" (Some (5, "Ann")) 1 (Some "2026-11-03 10:00:00");
         mk_ticket "TSK-AB-3" 102 "Import" (Some (5, "Ann")) 1 (Some "2026-10-01 10:00:00");
         mk_ticket "TSK-AB-4" 103 "Search" (Some (7, "Bob")) 1 None ];
     db_stages := [ ({| s_id := 1; s_name := "In Progress" |}, false);
                    ({| s_id := 2; s_name := "Done" |}, true) ];
     db_users := [ann; bob; cy];
     db_clock := noon |}.

Definition plain : config :=
  {| open_stage_names := ["In Progress"];
     preferred_developers := ∅;
     developer_roles := ∅;
     recent_days := 7 |}.

(** The same project when nobody holds a ticket. *)
Definition idle : db :=
  {| db_tickets :=
       [ mk_ticket "TSK-AB-1" 100 "Fix login" None 1 (Some "2026-11-01 08:00:00") ];
     db_stages := db_stages alpha;
     db_users := db_users alpha;
     db_clock := noon |}.

(** The same project when its stages carry other names. *)
Definition renamed : db :=
  {| db_tickets := db_tickets alpha;
     db_stages := [ ({| s_id := 1; s_name := "Doing" |}, false);
                    ({| s_id := 2; s_name := "Closed" |}, true) ];
     db_users := db_users alpha;
     db_clock := noon |}.

(** The same project when every stage is folded. *)
Definition folded : db :=
  {| db_tickets := db_tickets alpha;
     db_stages := [ ({| s_id := 1; s_name := "Doing" |}, true);
                    ({| s_id := 2; s_name := "Closed" |}, true) ];
     db_users := db_users alpha;
     db_clock := noon |}.

(** A policy whose only identifier for the project is unknown. *)
Definition prefers_ghost : config :=
  {| open_stage_names := ["In Progress"];
     preferred_developers := {[ "Alpha" := ["ghost"] ]};
     developer_roles := ∅;
     recent_days := 7 |}.

(** A policy that prefers Cy, who holds no ticket, and an unknown
    identifier. *)
Definition prefers_cy : config :=
  {| open_stage_names := ["In Progress"];
     preferred_developers := {[ "Alpha" := ["cy"; "ghost"] ]};
     developer_roles := {[ "Cy" := "backend" ]};
     recent_days := 7 |}.

Definition fix_login : task :=
  {| t_id := 100; t_name := "Fix login"; t_project_id := Some (42, "Alpha");
     t_user_id := None; t_priority := "1" |}.

Definition start (w : db) (replies : list string) : St db :=
  {| world := w; stdin := replies; stdout := []; writes := [] |}.

End Memory.

(* ===================================================================== *)
(** * Facts about the primitives                                          *)
(* ===================================================================== *)

Module PyFacts.

(** ** The order of strings *)

Lemma ltb_lt (a b : string) :
  String.ltb a b = true <-> OrderedTypeEx.String_as_OT.lt a b.
Proof.
  unfold String.ltb. rewrite <- OrderedTypeEx.String_as_OT.cmp_lt.
  unfold OrderedTypeEx.String_as_OT.cmp.
  destruct (String.compare a b); split; congruence.
Qed.

Lemma ltb_irrefl (a : string) : String.ltb a a = false.
Proof.
  destruct (String.ltb a a) eqn:E; [|done].
  apply ltb_lt in E.
  by destruct (OrderedTypeEx.String_as_OT.lt_not_eq _ _ E).
Qed.

Lemma ltb_trans (a b c : string) :
  String.ltb a b = true -> String.ltb b c = true -> String.ltb a c = true.
Proof.
  rewrite !ltb_lt. apply OrderedTypeEx.String_as_OT.lt_trans.
Qed.

Lemma ltb_trichotomy (a b : string) :
  String.ltb a b = true \/ a = b \/ String.ltb b a = true.
Proof.
  unfold String.ltb. rewrite (String.compare_antisym b a).
  destruct (String.compare a b) eqn:E; simpl; auto.
  right; left. by apply String.compare_eq_iff.
Qed.

Lemma ltb_asym (a b : string) : String.ltb a b = true -> String.ltb b a = false.
Proof.
  intros H. destruct (String.ltb b a) eqn:E; [|done].
  pose proof (ltb_trans _ _ _ H E) as Haa. by rewrite ltb_irrefl in Haa.
Qed.

(** ** The stable sort *)

Section Sorted.
Context {A : Type} (lt : A -> A -> bool).

(** [x] may stand before [y] in a sorted list. *)
Definition before (x y : A) : Prop := lt y x = false.

Hypothesis lt_asym : forall x y, lt x y = true -> lt y x = false.
Hypothesis before_trans : forall x y z, before x y -> before y z -> before x z.

Lemma insert_perm (x : A) (l : list A) : insert lt x l ≡ₚ x :: l.
Proof.
  induction l as [|y l IH]; simpl; [done|].
  destruct (lt y x); [|done].
  rewrite IH. apply Permutation_swap.
Qed.

Lemma sorted_perm (l : list A) : sorted lt l ≡ₚ l.
Proof.
  induction l as [|x l IH]; simpl; [done|].
  unfold sorted in IH. by rewrite insert_perm, IH.
Qed.

Lemma insert_sorted (x : A) (l : list A) :
  StronglySorted before l -> StronglySorted before (insert lt x l).
Proof.
  induction 1 as [|y l Hl IH Hy]; simpl.
  - repeat constructor.
  - destruct (lt y x) eqn:E.
    + constructor; [done|].
      rewrite insert_perm. constructor; [|done].
      by apply lt_asym.
    + constructor; [by constructor|].
      constructor; [done|].
      eapply Forall_impl; [exact Hy|].
      intros z Hz. by eapply before_trans.
Qed.

Lemma sorted_sorted (l : list A) : StronglySorted before (sorted lt l).
Proof.
  induction l as [|x l IH]; simpl; [constructor|].
  by apply insert_sorted.
Qed.

(** Two orders of the same elements are sorted to the same list as
    soon as distinct elements never compare equal. *)
Lemma sorted_unique (l l' : list A) :
  l ≡ₚ l' ->
  (forall x y, x ∈ l -> y ∈ l -> before x y -> before y x -> x = y) ->
  sorted lt l = sorted lt l'.
Proof.
  intros Hp Hanti.
  apply (StronglySorted_unique_strong before);
    [|apply sorted_sorted..|by rewrite !sorted_perm].
  intros x y Hx Hy. apply Hanti.
  - by rewrite sorted_perm in Hx.
  - by rewrite sorted_perm, <- Hp in Hy.
Qed.
End Sorted.

(** Sorting commutes with taking keys when the order only looks at the
    key. *)
Lemma insert_fmap {A B} (f : A -> B) (ltB : B -> B -> bool) (x : A) (l : list A) :
  f <$> insert (fun x y => ltB (f x) (f y)) x l = insert ltB (f x) (f <$> l).
Proof.
  induction l as [|y l IH]; [done|].
  cbn [insert fmap list_fmap]. destruct (ltB (f y) (f x)); [|done].
  cbn [fmap list_fmap] in *. by rewrite IH.
Qed.

Lemma sorted_fmap {A B} (f : A -> B) (ltB : B -> B -> bool) (l : list A) :
  f <$> sorted (fun x y => ltB (f x) (f y)) l = sorted ltB (f <$> l).
Proof.
  induction l as [|x l IH]; [done|].
  unfold sorted in *. cbn [foldr fmap list_fmap] in *.
  by rewrite <- IH, <- insert_fmap.
Qed.

(** ** Ordered dictionaries *)

Section OrderedDict.
Context {K V : Type} `{EqDecision K}.
Implicit Types (d : list (K * V)) (k : K) (v : V).

Lemma od_get_set_eq d k v : od_get (od_set d k v) k = Some v.
Proof.
  induction d as [|[k' v'] d IH]; simpl.
  - by rewrite decide_True.
  - destruct (decide (k = k')) as [->|Hne]; simpl.
    + by rewrite decide_True.
    + by rewrite decide_False.
Qed.

Lemma od_get_set_ne d k k' v : k <> k' -> od_get (od_set d k v) k' = od_get d k'.
Proof.
  intros Hne. induction d as [|[k0 v0] d IH]; simpl.
  - by rewrite decide_False.
  - destruct (decide (k = k0)) as [->|Hne0]; simpl.
    + by rewrite !decide_False.
    + destruct (decide (k' = k0)); [done|apply IH].
Qed.

Lemma od_get_None d k : od_get d k = None <-> k ∉ od_keys d.
Proof.
  unfold od_keys. induction d as [|[k' v'] d IH]; simpl.
  - split; [intros _; apply not_elem_of_nil|done].
  - rewrite not_elem_of_cons. destruct (decide (k = k')); [|tauto].
    split; [done|tauto].
Qed.

Lemma od_get_Some d k v : od_get d k = Some v -> (k, v) ∈ d.
Proof.
  induction d as [|[k' v'] d IH]; simpl; [done|].
  destruct (decide (k = k')) as [->|].
  - intros [= ->]. left.
  - intros H. right. auto.
Qed.

Lemma od_keys_set_elem d k v k' :
  k' ∈ od_keys (od_set d k v) <-> k' = k \/ k' ∈ od_keys d.
Proof.
  unfold od_keys. induction d as [|[k0 v0] d IH]; simpl.
  - rewrite list_elem_of_singleton, elem_of_nil. tauto.
  - destruct (decide (k = k0)) as [->|]; simpl.
    + rewrite !elem_of_cons. tauto.
    + rewrite !elem_of_cons, IH. tauto.
Qed.

Lemma od_keys_set_NoDup d k v : NoDup (od_keys d) -> NoDup (od_keys (od_set d k v)).
Proof.
  unfold od_keys. induction d as [|[k0 v0] d IH]; simpl.
  - intros _. apply NoDup_singleton.
  - rewrite !NoDup_cons. intros [Hk0 Hd].
    destruct (decide (k = k0)) as [->|Hne]; simpl.
    + by rewrite NoDup_cons.
    + rewrite NoDup_cons. split; [|auto].
      intros Hin. apply (od_keys_set_elem d k v k0) in Hin.
      destruct Hin; [congruence|done].
Qed.
End OrderedDict.

(** ** Indexing *)

(** [l[i]] succeeds for the indices from [-len(l)] to [len(l) - 1]: a
    negative index counts from the end. *)
Lemma getitem_Ok {A} (l : list A) (i : Z) (x : A) :
  getitem l i = Ok x <->
  (0 <= i < Z.of_nat (length l) /\ l !! Z.to_nat i = Some x)
  \/ (- Z.of_nat (length l) <= i < 0
      /\ l !! Z.to_nat (i + Z.of_nat (length l)) = Some x).
Proof.
  unfold getitem. destruct (Z.ltb_spec i 0) as [Hneg|Hpos].
  - destruct (Z.leb_spec 0 (i + Z.of_nat (length l))),
             (Z.ltb_spec (i + Z.of_nat (length l)) (Z.of_nat (length l)));
      cbn [andb].
    + destruct (l !! Z.to_nat (i + Z.of_nat (length l))) eqn:E.
      * split; [intros [= ->]; right; split; [lia|done]|].
        intros [[? _]|[_ [= ->]]]; [lia|done].
      * split; [done|]. intros [[? _]|[_ [=]]]. lia.
    + lia.
    + split; [done|]. intros [[? _]|[? _]]; lia.
    + lia.
  - destruct (Z.leb_spec 0 i), (Z.ltb_spec i (Z.of_nat (length l))); cbn [andb]; try lia.
    + destruct (l !! Z.to_nat i) eqn:E.
      * split; [intros [= ->]; left; split; [lia|done]|].
        intros [[_ [= ->]]|[? _]]; [done|lia].
      * split; [done|]. intros [[_ [=]]|[? _]]. lia.
    + split; [done|]. intros [[? _]|[? _]]; lia.
Qed.

End PyFacts.

(* ===================================================================== *)
(** * Properties of the assignment tool                                   *)
(* ===================================================================== *)

Module Ranking.
Import AssignFromViber PyFacts.

(** [a] may stand before [b] in the ranked list: more open tickets, or
    as many and a name that is not greater. *)
Definition ranked_before (a b : candidate) : Prop :=
  c_count b < c_count a \/
  (c_count a = c_count b /\ String.leb (c_name a) (c_name b) = true).

(** What the ranking looks at. *)
Definition rank_view (c : candidate) : Z * string := (c_count c, c_name c).

Lemma leb_ltb (a b : string) : String.leb a b = negb (String.ltb b a).
Proof.
  unfold String.leb, String.ltb. rewrite (String.compare_antisym a b).
  by destruct (String.compare b a).
Qed.

Lemma key_lt_spec (a b : Z * string) :
  key_lt a b = true <-> a.1 < b.1 \/ (a.1 = b.1 /\ String.ltb a.2 b.2 = true).
Proof.
  unfold key_lt. rewrite orb_true_iff, andb_true_iff, Z.ltb_lt, Z.eqb_eq. tauto.
Qed.

Lemma key_lt_asym (a b : Z * string) : key_lt a b = true -> key_lt b a = false.
Proof.
  intros H. apply key_lt_spec in H.
  apply not_true_is_false. rewrite key_lt_spec.
  intros [?|[? Hba]]; destruct H as [?|[? Hab]]; try lia.
  apply ltb_asym in Hab. congruence.
Qed.

Lemma key_before_spec (a b : Z * string) :
  before key_lt a b <-> a.1 < b.1 \/ (a.1 = b.1 /\ String.ltb b.2 a.2 = false).
Proof.
  unfold before. rewrite <- not_true_iff_false, key_lt_spec.
  destruct (String.ltb b.2 a.2); split.
  - intros H. left.
    destruct (Z.lt_trichotomy a.1 b.1) as [?|[?|?]]; [done|exfalso; apply H..].
    + by right.
    + by left.
  - intros [?|[_ [=]]] [?|[? _]]; lia.
  - intros H.
    destruct (Z.lt_trichotomy a.1 b.1) as [?|[?|?]]; [by left|by right|].
    exfalso; apply H. by left.
  - intros [?|[? _]] [?|[? [=]]]; lia.
Qed.

Lemma key_before_trans (a b c : Z * string) :
  before key_lt a b -> before key_lt b c -> before key_lt a c.
Proof.
  rewrite !key_before_spec.
  intros [?|[? Hab]] [?|[? Hbc]]; [left; lia..|].
  right. split; [lia|].
  destruct (String.ltb c.2 a.2) eqn:Hca; [|done].
  destruct (ltb_trichotomy a.2 b.2) as [Hlt|[Heq|Hgt]].
  - pose proof (ltb_trans _ _ _ Hca Hlt). congruence.
  - rewrite Heq in Hca. congruence.
  - congruence.
Qed.

Lemma key_before_antisym (a b : Z * string) :
  before key_lt a b -> before key_lt b a -> a = b.
Proof.
  rewrite !key_before_spec. destruct a as [a1 a2], b as [b1 b2]; simpl.
  intros [?|[? Hab]] [?|[? Hba]]; try lia.
  f_equal; [done|].
  destruct (ltb_trichotomy a2 b2) as [?|[?|?]]; congruence.
Qed.

Lemma cand_before_ranked (a b : candidate) :
  before cand_lt a b <-> ranked_before a b.
Proof.
  unfold cand_lt, ranked_before.
  change (before key_lt (sort_key a) (sort_key b) <->
          c_count b < c_count a \/
          (c_count a = c_count b /\ String.leb (c_name a) (c_name b) = true)).
  rewrite key_before_spec, leb_ltb, negb_true_iff. unfold sort_key; simpl.
  split; (intros [?|[? ?]]; [left; lia|right; split; [lia|done]]).
Qed.

Lemma rank_sorted (l : list candidate) : StronglySorted ranked_before (rank l).
Proof.
  assert (StronglySorted (before cand_lt) (rank l)) as H.
  { apply sorted_sorted.
    - intros x y. apply key_lt_asym.
    - intros x y z. apply key_before_trans. }
  induction H as [|x s Hs IH Hx]; constructor; [done|].
  eapply Forall_impl; [exact Hx|]. intros y. apply cand_before_ranked.
Qed.

Lemma rank_perm (l : list candidate) : rank l ≡ₚ l.
Proof. apply sorted_perm. Qed.

Lemma rank_keys (l l' : list candidate) :
  l ≡ₚ l' -> sort_key <$> rank l = sort_key <$> rank l'.
Proof.
  intros Hp. unfold rank, cand_lt. rewrite !sorted_fmap.
  apply sorted_unique.
  - apply key_lt_asym.
  - apply key_before_trans.
  - by rewrite Hp.
  - intros x y _ _. apply key_before_antisym.
Qed.

Lemma rank_view_key (l : list candidate) :
  rank_view <$> l = (fun k : Z * string => (- k.1, k.2)) <$> (sort_key <$> l).
Proof.
  rewrite <- list_fmap_compose. apply list_fmap_ext. intros _ c _.
  unfold rank_view, sort_key; simpl. f_equal. lia.
Qed.

(** C4 (amended). The ranked list is sorted by descending open-ticket
    count, ties by ascending display name (byte-wise lexicographic), and
    it holds the same candidates as the input.  For two orders of the
    same candidate records the ranked lists show the same counts and
    names position by position; they are the same lists whenever no two
    distinct records share both the count and the name. *)
Theorem rank_order (l l' : list candidate) :
  l ≡ₚ l' ->
  StronglySorted ranked_before (rank l)
  /\ rank l ≡ₚ l
  /\ rank_view <$> rank l = rank_view <$> rank l'
  /\ ((forall a b, a ∈ l -> b ∈ l -> rank_view a = rank_view b -> a = b) ->
      rank l = rank l').
Proof.
  intros Hp. split; [apply rank_sorted|]. split; [apply rank_perm|]. split.
  - by rewrite !rank_view_key, (rank_keys l l').
  - intros Hinj. apply sorted_unique.
    + intros x y. apply key_lt_asym.
    + intros x y z. apply key_before_trans.
    + done.
    + intros a b Ha Hb Hab Hba. apply Hinj; [done..|].
      pose proof (key_before_antisym _ _ Hab Hba) as Hk.
      unfold sort_key in Hk. unfold rank_view.
      injection Hk as H1 H2. f_equal; [lia|done].
Qed.

Definition alex1 : candidate :=
  {| c_id := 1; c_name := "Alex"; c_login := Some "alex"; c_email := None;
     c_role := "-"; c_count := 2; c_recent := false |}.
Definition alex2 : candidate :=
  {| c_id := 2; c_name := "Alex"; c_login := Some "alex2"; c_email := None;
     c_role := "-"; c_count := 2; c_recent := false |}.
Definition zoe : candidate :=
  {| c_id := 3; c_name := "Zoe"; c_login := Some "zoe"; c_email := None;
     c_role := "-"; c_count := 2; c_recent := false |}.
Definition busy : candidate :=
  {| c_id := 4; c_name := "Zed"; c_login := Some "zed"; c_email := None;
     c_role := "-"; c_count := 5; c_recent := false |}.

Lemma rank_order_witness :
  [zoe; busy; alex1] ≡ₚ [alex1; zoe; busy]
  /\ rank [zoe; busy; alex1] = [busy; alex1; zoe]
  /\ rank [zoe; busy; alex1] = rank [alex1; zoe; busy].
Proof.
  assert ([zoe; busy; alex1] ≡ₚ [alex1; zoe; busy]) as Hp.
  { change ([zoe; busy] ++ [alex1] ≡ₚ [alex1] ++ [zoe; busy]).
    apply Permutation_app_comm. }
  split; [exact Hp|]. split; [reflexivity|].
  apply (rank_order _ _ Hp).
  intros a b Ha Hb.
  rewrite !elem_of_cons, elem_of_nil in Ha, Hb.
  destruct Ha as [->|[->|[->|[]]]], Hb as [->|[->|[->|[]]]];
    first [reflexivity | intros H; discriminate H].
Defined.

(** C4, as stated, fails: two records with the same count and the same
    name stay in the order in which they came. *)
Lemma rank_same_key_keeps_input_order :
  [alex1; alex2] ≡ₚ [alex2; alex1]
  /\ rank [alex1; alex2] = [alex1; alex2]
  /\ rank [alex2; alex1] = [alex2; alex1]
  /\ rank [alex1; alex2] <> rank [alex2; alex1].
Proof.
  split; [apply Permutation_swap|]. repeat split. discriminate.
Qed.

End Ranking.

Module Workload.
Import AssignFromViber PyFacts Memory.

(** The two halves of the aggregation loop. *)
Definition count_step (counts : list (Z * Z)) (t : open_task) : list (Z * Z) :=
  match o_user_id t with
  | None => counts
  | Some (uid_val, _) => od_set counts uid_val (default 0 (od_get counts uid_val) + 1)
  end.

Definition recent_step (cutoff : datetime) (recent : list (Z * bool)) (t : open_task)
    : list (Z * bool) :=
  (aggregate_step cutoff ([], recent) t).2.

(** The number of records of [l] assigned to [k]. *)
Definition load (k : Z) (l : list open_task) : Z :=
  Z.of_nat (length (List.filter
    (fun t => match o_user_id t with Some (u, _) => u =? k | None => false end) l)).

(** A timestamp that is missing or that [strptime] rejects. *)
Definition unparsable (wdate : option string) : Prop :=
  match wdate with
  | None => True
  | Some s => exists e, strptime s = Raise e
  end.

Lemma aggregate_step_split cutoff counts recent t :
  aggregate_step cutoff (counts, recent) t
  = (count_step counts t, recent_step cutoff recent t).
Proof.
  unfold recent_step, count_step, aggregate_step.
  destruct (o_user_id t) as [[u n]|]; [|done].
  destruct (o_write_date t) as [s|]; [|done].
  destruct (nonempty s); [|done].
  by destruct (within_window cutoff s) as [[]|].
Qed.

Lemma aggregate_split cutoff l counts recent :
  fold_left (aggregate_step cutoff) l (counts, recent)
  = (fold_left count_step l counts, fold_left (recent_step cutoff) l recent).
Proof.
  revert counts recent. induction l as [|t l IH]; intros; cbn [fold_left]; [done|].
  by rewrite aggregate_step_split, IH.
Qed.

Lemma load_app k l1 l2 : load k (l1 ++ l2) = load k l1 + load k l2.
Proof. unfold load. rewrite List.filter_app, length_app. lia. Qed.

Lemma load_nonneg k l : 0 <= load k l.
Proof. unfold load. lia. Qed.

Lemma count_step_get counts t k :
  od_get (count_step counts t) k
  = if load k [t] =? 0 then od_get counts k
    else Some (default 0 (od_get counts k) + 1).
Proof.
  unfold count_step, load. simpl.
  destruct (o_user_id t) as [[u n]|]; simpl; [|done].
  destruct (Z.eqb_spec u k) as [->|Hne]; simpl.
  - by rewrite od_get_set_eq.
  - by rewrite od_get_set_ne.
Qed.

(** The count of a developer is the number of the records assigned to
    them, and only developers with a record get an entry. *)
Lemma counts_get l counts k :
  od_get (fold_left count_step l counts) k
  = if load k l =? 0 then od_get counts k
    else Some (default 0 (od_get counts k) + load k l).
Proof.
  revert counts. induction l as [|t l IH]; intros counts; simpl; [done|].
  rewrite IH, count_step_get.
  change (t :: l) with ([t] ++ l). rewrite load_app.
  pose proof (load_nonneg k [t]). pose proof (load_nonneg k l).
  assert (load k [t] = 0 \/ load k [t] = 1) as [Ht|Ht].
  { unfold load. simpl. destruct (o_user_id t) as [[u n]|]; simpl; [|by left].
    destruct (u =? k); simpl; auto. }
  - rewrite Ht. simpl. done.
  - rewrite Ht. simpl.
    destruct (Z.eqb_spec (load k l) 0) as [->|Hne]; simpl.
    + done.
    + destruct (Z.eqb_spec (1 + load k l) 0); [lia|].
      f_equal. lia.
Qed.

Lemma recent_step_unparsable cutoff recent t :
  unparsable (o_write_date t) -> recent_step cutoff recent t = recent.
Proof.
  unfold recent_step, aggregate_step, unparsable, within_window.
  destruct (o_user_id t) as [[u n]|]; [|done].
  destruct (o_write_date t) as [s|]; [|done].
  intros [e ->]. by destruct (nonempty s).
Qed.

(** C6. A record of developer [uid] whose timestamp is missing or does
    not parse is aggregated without an exception: the step adds one to
    the developer's count and leaves the recency map as it is; in the
    whole aggregation the record adds one to that developer's count,
    changes no other count and changes nothing in the recency map. *)
Theorem unparsable_counted_not_recent cutoff l1 l2 t uid uname :
  o_user_id t = Some (uid, uname) ->
  unparsable (o_write_date t) ->
  (forall counts recent,
     aggregate_step cutoff (counts, recent) t
     = (od_set counts uid (default 0 (od_get counts uid) + 1), recent))
  /\ default 0 (od_get (aggregate cutoff (l1 ++ t :: l2)).1 uid)
     = default 0 (od_get (aggregate cutoff (l1 ++ l2)).1 uid) + 1
  /\ (forall k, k <> uid ->
        od_get (aggregate cutoff (l1 ++ t :: l2)).1 k
        = od_get (aggregate cutoff (l1 ++ l2)).1 k)
  /\ (aggregate cutoff (l1 ++ t :: l2)).2 = (aggregate cutoff (l1 ++ l2)).2.
Proof.
  intros Hu Hw. split.
  { intros counts recent. rewrite aggregate_step_split.
    rewrite (recent_step_unparsable _ _ _ Hw). unfold count_step. by rewrite Hu. }
  unfold aggregate. rewrite !aggregate_split. cbn [fst snd].
  assert (load uid [t] = 1) as Ht.
  { unfold load. simpl. rewrite Hu. by rewrite Z.eqb_refl. }
  assert (forall k, k <> uid -> load k [t] = 0) as Ht'.
  { intros k Hk. unfold load. simpl. rewrite Hu.
    by destruct (Z.eqb_spec uid k) as [->|]. }
  split; [|split].
  - rewrite !counts_get. cbn [od_get default].
    change (t :: l2) with ([t] ++ l2). rewrite !load_app, Ht.
    pose proof (load_nonneg uid l1). pose proof (load_nonneg uid l2).
    destruct (Z.eqb_spec (load uid l1 + (1 + load uid l2)) 0); [lia|].
    destruct (Z.eqb_spec (load uid l1 + load uid l2) 0); simpl; lia.
  - intros k Hk. rewrite !counts_get.
    change (t :: l2) with ([t] ++ l2). rewrite !load_app, (Ht' k Hk).
    by rewrite Z.add_0_l.
  - rewrite !fold_left_app. simpl. by rewrite (recent_step_unparsable _ _ _ Hw).
Qed.

Definition ann_recent : open_task :=
  {| o_id := 101; o_user_id := Some (5, "Ann");
     o_write_date := Some "2026-11-03 10:00:00" |}.
Definition ann_garbled : open_task :=
  {| o_id := 102; o_user_id := Some (5, "Ann");
     o_write_date := Some "03/11/2026 10:00" |}.
Definition bob_undated : open_task :=
  {| o_id := 103; o_user_id := Some (7, "Bob"); o_write_date := None |}.

(** A naive cut-off, one week before 3 November 2026, 12:00:00. *)
Definition naive_cutoff : datetime :=
  {| wall := noon - 7 * us_per_day; tzinfo := None |}.

Lemma unparsable_counted_not_recent_witness :
  o_user_id ann_garbled = Some (5, "Ann")
  /\ unparsable (o_write_date ann_garbled)
  /\ aggregate naive_cutoff [ann_recent; bob_undated] = ([(5, 1); (7, 1)], [(5, true)])
  /\ default 0 (od_get (aggregate naive_cutoff
                          ([ann_recent] ++ ann_garbled :: [bob_undated])).1 5)
     = default 0 (od_get (aggregate naive_cutoff
                            ([ann_recent] ++ [bob_undated])).1 5) + 1
  /\ (aggregate naive_cutoff ([ann_recent] ++ ann_garbled :: [bob_undated])).2
     = (aggregate naive_cutoff ([ann_recent] ++ [bob_undated])).2.
Proof.
  assert (o_user_id ann_garbled = Some (5, "Ann")) as H1 by reflexivity.
  assert (unparsable (o_write_date ann_garbled)) as H2
    by (exists ValueError; reflexivity).
  split; [exact H1|]. split; [exact H2|]. split; [reflexivity|].
  destruct (unparsable_counted_not_recent naive_cutoff [ann_recent] [bob_undated]
              ann_garbled 5 "Ann" H1 H2) as (_ & Hc & _ & Hr).
  split; [exact Hc|exact Hr].
Defined.

(** ** The recent flag *)

Lemma within_window_aware cutoff wdate off :
  tzinfo cutoff = Some off ->
  within_window cutoff wdate = Raise ValueError
  \/ within_window cutoff wdate = Raise TypeError.
Proof.
  intros Hc. unfold within_window, strptime.
  destruct (format_regex wdate) as [|[[[[[[y m] d] hh] mm] ss] r] ?]; [by left|].
  destruct r; [|by left].
  unfold make.
  match goal with |- context [if ?c then _ else _] => destruct c end; [|by left].
  right. unfold ge. simpl. by rewrite Hc.
Qed.

(** With an aware cut-off the comparison with a parsed timestamp raises
    inside the [try], so that the recency map stays empty. *)
Lemma aggregate_recent_aware cutoff off l :
  tzinfo cutoff = Some off -> (aggregate cutoff l).2 = [].
Proof.
  intros Hc. unfold aggregate. rewrite aggregate_split. simpl.
  induction l as [|t l IH]; simpl; [done|].
  replace (recent_step cutoff [] t) with (@nil (Z * bool)); [done|].
  unfold recent_step, aggregate_step.
  destruct (o_user_id t) as [[u n]|]; [|done].
  destruct (o_write_date t) as [s|]; [|done].
  destruct (nonempty s); [|done].
  by destruct (within_window_aware cutoff s off Hc) as [-> | ->].
Qed.

(** C1, at a failing input.  At noon of 3 November 2026 with a window
    of 7 days, Ann holds an open ticket written at 10:00 of the same
    day: the timestamp parses and lies inside the window, yet the
    aggregation of the project returns an empty recency map and Ann's
    recent flag is false. *)
Lemma recent_flag_false_inside_window :
  exists cutoff dt,
    sub_days (now_utc noon) 7 = Ok cutoff
    /\ strptime "2026-11-03 10:00:00" = Ok dt
    /\ wall cutoff <= wall dt <= noon
    /\ (workload gateway plain 42 [1] (start alpha [])).1
       = Ok ([(5, 2); (7, 1)], [])
    /\ c_recent (enrich ∅ [(5, 2); (7, 1)] [] ann) = false.
Proof.
  eexists _, _. split; [reflexivity|]. split; [reflexivity|].
  split; [by vm_compute|]. split; reflexivity.
Qed.

End Workload.


Module Roles.
Import AssignFromViber.

(** The role that the policy gives to one identity field: the field must
    hold a non-empty string and that string must be a key of the policy. *)
Definition usable (role_map : gmap string string) (key : option string)
    : option string :=
  match key with
  | Some k => if nonempty k then role_map !! k else None
  | None => None
  end.

(** The lookup by precedence: display name, then login, then email; the
    first usable one gives the role, else the sentinel. *)
Definition role_by_precedence (role_map : gmap string string) (u : user) : string :=
  match usable role_map (Some (u_name u)) with
  | Some r => r
  | None =>
      match usable role_map (u_login u) with
      | Some r => r
      | None =>
          match usable role_map (u_email u) with
          | Some r => r
          | None => "-"
          end
      end
  end.

(** The lookup as C7 words it: a field that is a key of the policy wins,
    whatever the string. *)
Definition role_by_presence (role_map : gmap string string) (u : user) : string :=
  match role_map !! u_name u with
  | Some r => r
  | None =>
      match u_login u ≫= (role_map !!.) with
      | Some r => r
      | None =>
          match u_email u ≫= (role_map !!.) with
          | Some r => r
          | None => "-"
          end
      end
  end.

Lemma usable_empty (key : option string) : usable ∅ key = None.
Proof.
  destruct key as [k|]; [|done]. simpl.
  destruct (nonempty k); [apply lookup_empty|done].
Qed.

Lemma resolve_role_precedence (role_map : gmap string string) (u : user) :
  resolve_role role_map u = role_by_precedence role_map u.
Proof.
  unfold resolve_role, role_by_precedence.
  destruct (decide (role_map = ∅)) as [->|_].
  - by rewrite !usable_empty.
  - unfold usable. cbn [first_role].
    destruct (nonempty (u_name u)).
    + destruct (role_map !! u_name u); [done|].
      destruct (u_login u) as [l|], (u_email u) as [e|];
        repeat first [ done
                     | match goal with
                       | |- context [nonempty ?k] => destruct (nonempty k)
                       | |- context [role_map !! ?k] => destruct (role_map !! k)
                       end ].
    + destruct (u_login u) as [l|], (u_email u) as [e|];
        repeat first [ done
                     | match goal with
                       | |- context [nonempty ?k] => destruct (nonempty k)
                       | |- context [role_map !! ?k] => destruct (role_map !! k)
                       end ].
Qed.

(** C7 (amended). Enrichment is total and attaches: the open-ticket count
    of the workload map, 0 when the id is absent; the recent flag of the
    recency map, false when absent; and the role that the policy gives to
    the first of display name, login, email that is a non-empty string and
    a key of the policy, the sentinel ["-"] when there is none. *)
Theorem enrich_fields (role_map : gmap string string) (counts : list (Z * Z))
    (recent : list (Z * bool)) (u : user) :
  let c := enrich role_map counts recent u in
  c_id c = u_id u
  /\ c_name c = u_name u
  /\ c_count c = match od_get counts (u_id u) with Some n => n | None => 0 end
  /\ c_recent c = match od_get recent (u_id u) with Some b => b | None => false end
  /\ c_role c = role_by_precedence role_map u.
Proof.
  cbn [enrich c_id c_name c_count c_recent c_role].
  split; [done|]. split; [done|].
  split; [by destruct (od_get counts (u_id u))|].
  split; [by destruct (od_get recent (u_id u))|].
  apply resolve_role_precedence.
Qed.

(** A user whose email is the empty string, and a policy with a role
    under the empty key. *)
Definition blank_mail : user :=
  {| u_id := 9; u_name := "Cy"; u_login := Some "cy"; u_email := Some "" |}.
Definition blank_policy : gmap string string := {[ "" := "lead" ]}.

(** C7, as stated, fails: the email of the candidate is a key of the
    policy, and the label is the sentinel all the same, because an empty
    key is never looked up. *)
Lemma empty_key_is_skipped :
  blank_policy !! "" = Some "lead"
  /\ role_by_presence blank_policy blank_mail = "lead"
  /\ c_role (enrich blank_policy [] [] blank_mail) = "-"
  /\ c_role (enrich blank_policy [] [] blank_mail)
     <> role_by_presence blank_policy blank_mail.
Proof. by vm_compute. Qed.

End Roles.


Module Loop.
Import AssignFromViber PyFacts.

(** ** Running the monad *)

Section Steps.
Context {W : Type}.
Implicit Types (st : St W).

Lemma bind_ok {A B} (m : M W A) (k : A -> M W B) st a st' :
  m st = (Ok a, st') -> bind m k st = k a st'.
Proof. unfold bind. by intros ->. Qed.

Lemma bind_raise {A B} (m : M W A) (k : A -> M W B) st e st' :
  m st = (Raise e, st') -> bind m k st = (Raise e, st').
Proof. unfold bind. by intros ->. Qed.

(** A computation that issues no write and leaves the remote system as
    it is. *)
Definition quiet {A} (m : M W A) : Prop :=
  forall st, writes (m st).2 = writes st /\ world (m st).2 = world st.

Lemma quiet_ret {A} (a : A) : quiet (ret (W:=W) a).
Proof. by intros st. Qed.

Lemma quiet_bind {A B} (m : M W A) (k : A -> M W B) :
  quiet m -> (forall a, quiet (k a)) -> quiet (bind m k).
Proof.
  intros Hm Hk st. unfold bind.
  destruct (Hm st) as [Hw Hd].
  destruct (m st) as [[a|e] st1]; simpl in *.
  - destruct (Hk a st1) as [Hw' Hd']. split; congruence.
  - done.
Qed.

Lemma quiet_print s : quiet (print (W:=W) s).
Proof. by intros st. Qed.

Lemma quiet_emit p : quiet (fun st => (Ok tt, emit p st)).
Proof. by intros st. Qed.

Lemma quiet_print_all ls : quiet (print_all (W:=W) ls).
Proof.
  induction ls as [|l ls IH]; simpl.
  - apply quiet_ret.
  - apply quiet_bind; [apply quiet_print|done].
Qed.

Lemma quiet_input prompt : quiet (input (W:=W) prompt).
Proof. intros st. unfold input. simpl. by destruct (stdin st). Qed.

Lemma quiet_query {A} (q : W -> res A) : quiet (query q).
Proof. by intros st. Qed.

End Steps.

Create HintDb quiet.
#[local] Hint Resolve quiet_ret quiet_print quiet_emit quiet_print_all
  quiet_input quiet_query : quiet.

(** Decomposition of a computation into quiet steps. *)
Ltac quiet_steps :=
  repeat first
    [ progress auto with quiet
    | apply quiet_bind; [|intros ?]
    | match goal with
      | |- quiet (match ?x with _ => _ end) => destruct x
      | |- quiet (if ?x then _ else _) => destruct x
      | |- quiet (let '(_, _) := ?x in _) => destruct x
      end ].

Section Phases.
Context {W : Type} (gw : Gateway W) (cfg : config).
Implicit Types (st : St W).

Lemma quiet_select_task code : quiet (select_task gw code).
Proof. unfold select_task. quiet_steps. Qed.

Lemma quiet_resolve_open_stages : quiet (resolve_open_stages gw cfg).
Proof. unfold resolve_open_stages. quiet_steps. Qed.

Lemma quiet_workload pid sids : quiet (workload gw cfg pid sids).
Proof. unfold workload. quiet_steps. Qed.

Lemma quiet_resolve_users_from resolved identifiers :
  quiet (resolve_users_from gw resolved identifiers).
Proof.
  revert resolved. induction identifiers as [|i l IH]; intros resolved; simpl.
  - apply quiet_ret.
  - apply quiet_bind; [apply quiet_query|]. intros us. apply IH.
Qed.

Lemma quiet_preferred pid pname : quiet (preferred gw cfg pid pname).
Proof.
  unfold preferred, resolve_users.
  pose proof quiet_resolve_users_from. quiet_steps.
Qed.

Lemma quiet_present task pname counts recent ids :
  quiet (present gw cfg task pname counts recent ids).
Proof. unfold present. quiet_steps. Qed.

Lemma quiet_choose candidates : quiet (choose (W:=W) candidates).
Proof. unfold choose. quiet_steps. Qed.

Lemma quiet_commit_dry task top : quiet (commit gw true task top).
Proof. unfold commit. quiet_steps. Qed.

Lemma quiet_assign_among_dry task pname counts recent ids :
  quiet (assign_among gw cfg true task pname counts recent ids).
Proof.
  unfold assign_among.
  pose proof quiet_present. pose proof quiet_choose. pose proof quiet_commit_dry.
  quiet_steps.
Qed.

Lemma quiet_assign_task_dry task : quiet (assign_task gw cfg true task).
Proof.
  unfold assign_task, assign_with_stages.
  pose proof quiet_resolve_open_stages. pose proof quiet_workload.
  pose proof quiet_preferred. pose proof quiet_assign_among_dry.
  quiet_steps.
Qed.

Lemma quiet_process_code_dry code : quiet (process_code gw cfg true code).
Proof.
  unfold process_code.
  pose proof quiet_select_task. pose proof quiet_assign_task_dry.
  quiet_steps.
Qed.

Lemma quiet_run_codes_dry codes : quiet (run_codes gw cfg true codes).
Proof.
  induction codes as [|c codes IH]; simpl.
  - apply quiet_ret.
  - apply quiet_bind; [apply quiet_process_code_dry|done].
Qed.

(** The loop goes on with the next code when the body returns. *)
Lemma run_codes_next dry code rest st st' :
  process_code gw cfg dry code st = (Ok tt, st') ->
  run_codes gw cfg dry (code :: rest) st = run_codes gw cfg dry rest st'.
Proof. intros H. simpl. by rewrite (bind_ok _ _ _ _ _ H). Qed.

(** C9. When the decision resolves to a candidate and dry-run mode is
    active, the body of the loop ends with the report that names the
    would-be assignee, and no write is issued: the log of writes and the
    remote system are as before.  Under dry-run no run issues a write at
    all. *)
Theorem dry_run_reports_without_write task pname counts recent ids cands top
    st st1 st2 :
  ids <> [] ->
  present gw cfg task pname counts recent ids st = (Ok cands, st1) ->
  choose cands st1 = (Ok (Some top), st2) ->
  assign_among gw cfg true task pname counts recent ids st
  = (Ok tt, emit (Line ("Dry-run: would assign task " +:+ str (t_id task)
                        +:+ " to " +:+ c_name top)) st2)
  /\ writes st2 = writes st
  /\ world st2 = world st
  /\ (forall codes st0,
        writes (run_codes gw cfg true codes st0).2 = writes st0
        /\ world (run_codes gw cfg true codes st0).2 = world st0).
Proof.
  intros Hids Hp Hc.
  pose proof (quiet_present task pname counts recent ids st) as [Hw1 Hd1].
  pose proof (quiet_choose cands st1) as [Hw2 Hd2].
  rewrite Hp in Hw1, Hd1. rewrite Hc in Hw2, Hd2. simpl in *.
  split; [|split; [congruence|split; [congruence|]]].
  - unfold assign_among. destruct ids as [|i ids]; [done|].
    rewrite (bind_ok _ _ _ _ _ Hp), (bind_ok _ _ _ _ _ Hc). done.
  - intros codes st0. apply quiet_run_codes_dry.
Qed.

Lemma process_code_chosen dry code task st st1 :
  select_task gw code st = (Ok (Some task), st1) ->
  process_code gw cfg dry code st = assign_task gw cfg dry task st1.
Proof. intros H. unfold process_code. by rewrite (bind_ok _ _ _ _ _ H). Qed.

Lemma select_task_quiet_at code st r st1 :
  select_task gw code st = (r, st1) -> writes st1 = writes st /\ world st1 = world st.
Proof.
  intros H. pose proof (quiet_select_task code st) as Hq. by rewrite H in Hq.
Qed.

Lemma assign_among_write dry task pname counts recent ids st :
  writes (assign_among gw cfg dry task pname counts recent ids st).2 <> writes st ->
  ids <> []
  /\ exists cands st1,
       present gw cfg task pname counts recent ids st = (Ok cands, st1)
       /\ cands <> [].
Proof.
  intros Hw. destruct ids as [|i ids]; [done|]. split; [done|].
  revert Hw. unfold assign_among.
  pose proof (quiet_present task pname counts recent (i :: ids) st) as [Hq _].
  destruct (present gw cfg task pname counts recent (i :: ids) st)
    as [[cands|e] st1] eqn:Hp; simpl in Hq.
  - destruct cands as [|c cands].
    + rewrite (bind_ok _ _ _ _ _ Hp). unfold choose.
      erewrite bind_raise by reflexivity. simpl. congruence.
    + intros _. by exists (c :: cands), st1.
  - rewrite (bind_raise _ _ _ _ _ Hp). simpl. congruence.
Qed.

(** A write of the loop body is issued by [assign_among], after phases
    that issue none. *)
Lemma process_code_write dry code st :
  writes (process_code gw cfg dry code st).2 <> writes st ->
  exists task pname counts recent ids st4,
    process_code gw cfg dry code st
    = assign_among gw cfg dry task pname counts recent ids st4
    /\ writes st4 = writes st.
Proof.
  unfold process_code.
  pose proof (quiet_select_task code st) as [Hw1 _].
  destruct (select_task gw code st) as [[[task|]|e] st1] eqn:Hsel; simpl in Hw1;
    [rewrite (bind_ok _ _ _ _ _ Hsel)
    |rewrite (bind_ok _ _ _ _ _ Hsel); simpl; congruence
    |rewrite (bind_raise _ _ _ _ _ Hsel); simpl; congruence].
  unfold assign_task.
  destruct (t_project_id task) as [[pid pname]|]; [|simpl; congruence].
  pose proof (quiet_resolve_open_stages st1) as [Hw2 _].
  destruct (resolve_open_stages gw cfg st1) as [[[sids|]|e] st2] eqn:Hst; simpl in Hw2;
    [rewrite (bind_ok _ _ _ _ _ Hst)
    |rewrite (bind_ok _ _ _ _ _ Hst); simpl; congruence
    |rewrite (bind_raise _ _ _ _ _ Hst); simpl; congruence].
  unfold assign_with_stages.
  pose proof (quiet_workload pid sids st2) as [Hw3 _].
  destruct (workload gw cfg pid sids st2) as [[[counts recent]|e] st3] eqn:Hwl;
    simpl in Hw3;
    [rewrite (bind_ok _ _ _ _ _ Hwl)
    |rewrite (bind_raise _ _ _ _ _ Hwl); simpl; congruence].
  pose proof (quiet_preferred pid pname st3) as [Hw4 _].
  destruct (preferred gw cfg pid pname st3) as [[p|e] st4] eqn:Hpref; simpl in Hw4;
    [rewrite (bind_ok _ _ _ _ _ Hpref)
    |rewrite (bind_raise _ _ _ _ _ Hpref); simpl; congruence].
  intros _. exists task, pname, counts, recent, (candidate_ids p counts), st4.
  split; [done|congruence].
Qed.

(** C8. An empty candidate set ends the ticket with the report "No
    candidates found" and without a write; whenever the body of the loop
    issues a write for a reference code, the candidate ids and the ranked
    candidate list were not empty; and in the loop, a ticket whose
    candidate set is empty is followed by the next reference code, with
    no write issued for it. *)
Theorem write_only_with_candidates dry :
  (forall task pname counts recent st,
     assign_among gw cfg dry task pname counts recent [] st
     = (Ok tt, emit (Line "No candidates found") st))
  /\ (forall code st,
        writes (process_code gw cfg dry code st).2 <> writes st ->
        exists task pname counts recent ids st4 cands st5,
          process_code gw cfg dry code st
          = assign_among gw cfg dry task pname counts recent ids st4
          /\ writes st4 = writes st
          /\ ids <> []
          /\ present gw cfg task pname counts recent ids st4 = (Ok cands, st5)
          /\ cands <> [])
  /\ (forall code rest task pid pname sids counts recent p st st1 st2 st3 st4,
        select_task gw code st = (Ok (Some task), st1) ->
        t_project_id task = Some (pid, pname) ->
        resolve_open_stages gw cfg st1 = (Ok (Some sids), st2) ->
        workload gw cfg pid sids st2 = (Ok (counts, recent), st3) ->
        preferred gw cfg pid pname st3 = (Ok p, st4) ->
        candidate_ids p counts = [] ->
        run_codes gw cfg dry (code :: rest) st
        = run_codes gw cfg dry rest (emit (Line "No candidates found") st4)
        /\ writes st4 = writes st
        /\ world st4 = world st).
Proof.
  split; [done|]. split.
  - intros code st Hw.
    destruct (process_code_write dry code st Hw)
      as (task & pname & counts & recent & ids & st4 & Heq & Hw4).
    rewrite Heq, <- Hw4 in Hw.
    destruct (assign_among_write _ _ _ _ _ _ _ Hw) as (Hids & cands & st5 & Hp & Hc).
    by exists task, pname, counts, recent, ids, st4, cands, st5.
  - intros code rest task pid pname sids counts recent p st st1 st2 st3 st4
      Hsel Hproj Hst Hwl Hpref Hids.
    destruct (select_task_quiet_at _ _ _ _ Hsel) as [Hw1 Hd1].
    pose proof (quiet_resolve_open_stages st1) as [Hw2 Hd2].
    pose proof (quiet_workload pid sids st2) as [Hw3 Hd3].
    pose proof (quiet_preferred pid pname st3) as [Hw4 Hd4].
    rewrite Hst in Hw2, Hd2. rewrite Hwl in Hw3, Hd3. rewrite Hpref in Hw4, Hd4.
    simpl in *.
    split; [|split; congruence].
    apply run_codes_next. rewrite (process_code_chosen _ _ _ _ _ Hsel).
    unfold assign_task. rewrite Hproj, (bind_ok _ _ _ _ _ Hst).
    unfold assign_with_stages.
    rewrite (bind_ok _ _ _ _ _ Hwl), (bind_ok _ _ _ _ _ Hpref).
    cbn [fst snd]. by rewrite Hids.
Qed.

(** C5. When the configured stage names are empty or resolve to no stage,
    the open stages are those that the query for the stages with
    [fold = False] returns, and the ticket is processed with them; when
    that query returns none either, the message "No open stages found;
    skipping" is printed, no write is issued, and the loop goes on with
    the next reference code. *)
Theorem stage_fallback dry code rest task pid pname us st st1 :
  select_task gw code st = (Ok (Some task), st1) ->
  t_project_id task = Some (pid, pname) ->
  (open_stage_names cfg = []
   \/ search_stages_by_name gw (world st1) (open_stage_names cfg) = Ok []) ->
  search_stages_unfolded gw (world st1) = Ok us ->
  (us <> [] ->
     resolve_open_stages gw cfg st1 = (Ok (Some (s_id <$> us)), st1)
     /\ process_code gw cfg dry code st
        = assign_with_stages gw cfg dry task pid pname (s_id <$> us) st1)
  /\ (us = [] ->
        resolve_open_stages gw cfg st1
        = (Ok None, emit (Line "No open stages found; skipping") st1)
        /\ run_codes gw cfg dry (code :: rest) st
           = run_codes gw cfg dry rest
               (emit (Line "No open stages found; skipping") st1)
        /\ writes st1 = writes st
        /\ world st1 = world st).
Proof.
  intros Hsel Hproj Hnames Hus.
  assert (resolve_open_stages gw cfg st1
          = match s_id <$> us with
            | [] => (Ok None, emit (Line "No open stages found; skipping") st1)
            | ids => (Ok (Some ids), st1)
            end) as Hres.
  { unfold resolve_open_stages.
    destruct Hnames as [Hn|Hn].
    - rewrite Hn. unfold bind at 1. unfold ret at 1.
      unfold bind at 1. unfold query at 1. rewrite Hus.
      by destruct (s_id <$> us).
    - destruct (open_stage_names cfg) as [|n ns] eqn:Hcfg.
      + unfold bind at 1. unfold ret at 1.
        unfold bind at 1. unfold query at 1. rewrite Hus.
        by destruct (s_id <$> us).
      + unfold bind at 1. unfold bind at 1. unfold query at 1. rewrite Hn.
        unfold ret at 1. cbn [fmap list_fmap].
        unfold bind at 1. unfold query at 1. rewrite Hus.
        by destruct (s_id <$> us). }
  split.
  - intros Hne. destruct us as [|u us]; [done|]. cbn [fmap list_fmap] in *.
    split; [done|].
    rewrite (process_code_chosen _ _ _ _ _ Hsel).
    unfold assign_task. by rewrite Hproj, (bind_ok _ _ _ _ _ Hres).
  - intros ->. cbn [fmap list_fmap] in Hres. split; [done|].
    destruct (select_task_quiet_at _ _ _ _ Hsel) as [Hw1 Hd1].
    split; [|done].
    apply run_codes_next. rewrite (process_code_chosen _ _ _ _ _ Hsel).
    unfold assign_task. by rewrite Hproj, (bind_ok _ _ _ _ _ Hres).
Qed.

(** ** Listing the candidates *)

Definition emit_all (ls : list string) (st : St W) : St W :=
  fold_left (fun s l => emit (Line l) s) ls st.

Lemma print_all_ok ls st : print_all ls st = (Ok tt, emit_all ls st).
Proof.
  revert st. induction ls as [|l ls IH]; intros st; [done|].
  cbn [print_all]. unfold bind, print. by rewrite IH.
Qed.

(** The ranked list is the sorted list of the enriched records that the
    read returns for the candidate ids. *)
Lemma present_ok task pname counts recent ids records st :
  read_users gw (world st) ids = Ok records ->
  (present gw cfg task pname counts recent ids st).1
  = Ok (rank (enrich (developer_roles cfg) counts recent <$> records)).
Proof.
  intros Hr. unfold present.
  unfold bind at 1. unfold query at 1. rewrite Hr.
  unfold bind, print. by rewrite print_all_ok.
Qed.

(** In the loop the cut-off is aware, so that the recency map of the
    workload is empty whatever the timestamps. *)
Lemma workload_recent_empty pid sids st counts recent st' :
  workload gw cfg pid sids st = (Ok (counts, recent), st') -> recent = [].
Proof.
  unfold workload, bind, query, ret.
  destruct (search_open_tasks gw (world st) pid sids) as [open_tasks|]; [|done].
  destruct (sub_days (now_utc (clock gw (world st))) (recent_days cfg))
    as [cutoff|] eqn:Hc; [|done].
  intros [= Hagg _].
  assert (tzinfo cutoff = Some 0) as Htz.
  { unfold sub_days in Hc.
    repeat match type of Hc with
           | (if ?c then _ else _) = _ => destruct c; [|done]
           end.
    by injection Hc as <-. }
  pose proof (Workload.aggregate_recent_aware cutoff 0 open_tasks Htz) as Hrec.
  by rewrite Hagg in Hrec.
Qed.

(** ** Preferred developers *)

(** The user that the search for one identifier yields, if any. *)
Definition found (w : W) (ident : string) : option user :=
  match search_user gw w ident with
  | Ok us => head us
  | Raise _ => None
  end.

Lemma resolve_users_from_ok identifiers resolved st :
  (forall ident, ident ∈ identifiers ->
     exists us, search_user gw (world st) ident = Ok us) ->
  resolve_users_from gw resolved identifiers st
  = (Ok (fold_left (fun r ident => od_set r ident (found (world st) ident))
           identifiers resolved), st).
Proof.
  revert resolved. induction identifiers as [|i l IH]; intros resolved Hall; [done|].
  cbn [resolve_users_from fold_left].
  destruct (Hall i) as [us Hus]; [left|].
  unfold bind at 1. unfold query at 1. rewrite Hus.
  rewrite IH by (intros; apply Hall; by right).
  assert (found (world st) i = head us) as -> by (unfold found; by rewrite Hus).
  done.
Qed.

Lemma resolved_get (f : string -> option user) identifiers resolved k :
  od_get (fold_left (fun r ident => od_set r ident (f ident)) identifiers resolved) k
  = if bool_decide (k ∈ identifiers) then Some (f k) else od_get resolved k.
Proof.
  revert resolved. induction identifiers as [|i l IH]; intros resolved; [done|].
  cbn [fold_left]. rewrite IH.
  destruct (bool_decide_reflect (k ∈ l)) as [Hin|Hnin].
  - by rewrite bool_decide_eq_true_2 by (by right).
  - destruct (decide (k = i)) as [->|Hne].
    + rewrite bool_decide_eq_true_2 by left. apply od_get_set_eq.
    + rewrite bool_decide_eq_false_2.
      * by apply od_get_set_ne.
      * rewrite elem_of_cons. tauto.
Qed.

Lemma resolved_NoDup (f : string -> option user) identifiers resolved :
  NoDup (od_keys resolved) ->
  NoDup (od_keys (fold_left (fun r ident => od_set r ident (f ident))
                    identifiers resolved)).
Proof.
  revert resolved. induction identifiers as [|i l IH]; intros resolved Hnd; [done|].
  cbn [fold_left]. apply IH. by apply od_keys_set_NoDup.
Qed.

Lemma od_elem_get {V} (d : list (string * V)) k v :
  NoDup (od_keys d) -> (k, v) ∈ d <-> od_get d k = Some v.
Proof.
  unfold od_keys. induction d as [|[k' v'] d IH]; simpl.
  - intros _. rewrite elem_of_nil. split; [done|discriminate].
  - rewrite NoDup_cons. intros [Hk' Hd]. rewrite elem_of_cons.
    destruct (decide (k = k')) as [->|Hne].
    + split.
      * intros [[= ->]|Hin]; [done|].
        destruct Hk'. apply list_elem_of_fmap. by exists (k', v).
      * intros [= ->]. by left.
    + rewrite <- (IH Hd). split; [|tauto].
      intros [[= ? ?]|?]; [done|done].
Qed.

Lemma preferred_ids_elem (resolved : list (string * option user)) i :
  i ∈ preferred_ids_of resolved
  <-> exists k u, (k, Some u) ∈ resolved /\ u_id u = i.
Proof.
  unfold preferred_ids_of, od_values. rewrite list_elem_of_omap. split.
  - intros (v & Hv & Hi). apply list_elem_of_fmap in Hv as ([k v'] & -> & Hkv).
    destruct v' as [u|]; [|done]. simpl in Hi. injection Hi as <-.
    by exists k, u.
  - intros (k & u & Hin & <-). exists (Some u). split; [|done].
    apply list_elem_of_fmap. by exists (k, Some u).
Qed.

(** C3 (amended). When the preference policy has an entry that matches
    the project under a non-empty key and at least one identifier of the
    entry resolves to a user, the candidate ids are exactly the ids of the
    users that the identifiers of the entry resolve to, whatever the
    workload map; and the ranked list holds every record read for these
    ids, with count 0 for a developer who is absent from the workload
    map. *)
Theorem preferred_candidates pid pname key identifiers st :
  pick_project_key (preferred_developers cfg) pid pname = Some key ->
  nonempty key = true ->
  preferred_developers cfg !! key = Some identifiers ->
  (forall ident, ident ∈ identifiers ->
     exists us, search_user gw (world st) ident = Ok us) ->
  (exists ident u us,
     ident ∈ identifiers /\ search_user gw (world st) ident = Ok (u :: us)) ->
  exists ids st',
    preferred gw cfg pid pname st = (Ok (Some ids), st')
    /\ (forall i, i ∈ ids <->
          exists ident u us,
            ident ∈ identifiers
            /\ search_user gw (world st) ident = Ok (u :: us)
            /\ u_id u = i)
    /\ (forall counts, candidate_ids (Some ids) counts = ids)
    /\ (forall task counts recent records st1,
          read_users gw (world st1) ids = Ok records ->
          (present gw cfg task pname counts recent ids st1).1
          = Ok (rank (enrich (developer_roles cfg) counts recent <$> records))
          /\ forall u,
               u ∈ records -> od_get counts (u_id u) = None ->
               exists c,
                 c ∈ rank (enrich (developer_roles cfg) counts recent <$> records)
                 /\ c_id c = u_id u /\ c_name c = u_name u /\ c_count c = 0).
Proof.
  intros Hkey Hne Hids Hall Hsome.
  set (resolved := fold_left (fun r ident => od_set r ident (found (world st) ident))
                     identifiers []).
  assert (forall i, i ∈ preferred_ids_of resolved <->
            exists ident u us,
              ident ∈ identifiers
              /\ search_user gw (world st) ident = Ok (u :: us)
              /\ u_id u = i) as Hmem.
  { intros i. rewrite preferred_ids_elem. split.
    - intros (k & u & Hin & Hi).
      apply od_elem_get in Hin; [|apply resolved_NoDup, NoDup_nil_2].
      unfold resolved in Hin. rewrite resolved_get in Hin.
      destruct (bool_decide_reflect (k ∈ identifiers)) as [Hk|Hk]; [|done].
      injection Hin as Hf. unfold found in Hf.
      destruct (search_user gw (world st) k) as [[|u' us]|e] eqn:Hs; try done.
      simpl in Hf. injection Hf as ->. by exists k, u, us.
    - intros (k & u & us & Hk & Hs & Hi). exists k, u. split; [|done].
      apply od_elem_get; [apply resolved_NoDup, NoDup_nil_2|].
      unfold resolved. rewrite resolved_get, bool_decide_eq_true_2 by done.
      unfold found. by rewrite Hs. }
  exists (preferred_ids_of resolved).
  exists (match missing_of resolved with
          | [] => st
          | missing =>
              emit (Line ("Preferred devs not found: "
                          +:+ String.concat ", " missing)) st
          end).
  split; [|split; [exact Hmem|split]].
  - unfold preferred. rewrite Hkey, Hne.
    unfold bind at 1. unfold query at 1. rewrite Hids.
    unfold resolve_users.
    rewrite (bind_ok _ _ _ _ _ (resolve_users_from_ok identifiers [] st Hall)).
    fold resolved.
    destruct (missing_of resolved) as [|m ms]; reflexivity.
  - intros counts.
    destruct Hsome as (ident & u & us & Hin & Hs).
    assert (u_id u ∈ preferred_ids_of resolved) as Hu.
    { apply Hmem. by exists ident, u, us. }
    unfold candidate_ids. destruct (preferred_ids_of resolved); [|done].
    by apply elem_of_nil in Hu.
  - intros task counts recent records st1 Hr.
    split; [by apply present_ok|].
    intros u Hu Hc.
    exists (enrich (developer_roles cfg) counts recent u). split.
    + unfold rank. rewrite sorted_perm. by apply list_elem_of_fmap_2.
    + cbn [enrich c_id c_name c_count]. by rewrite Hc.
Qed.

End Phases.

(** Without a resolved preferred developer the candidates are the
    developers of the workload map, in the order of their first ticket. *)
Lemma candidate_ids_fallback (counts : list (Z * Z)) :
  candidate_ids None counts = od_keys counts
  /\ candidate_ids (Some []) counts = od_keys counts.
Proof. done. Qed.

(** After a declined confirmation, a reply for which the indexing raises
    is reported as an invalid selection and ends the ticket. *)
Lemma choose_invalid {W : Type} (cands : list candidate) (top : candidate)
    (yn sel : string) (rest : list string) (e : exn) (st : St W) :
  getitem cands 0 = Ok top ->
  stdin st = yn :: sel :: rest ->
  String.eqb (lower (strip yn)) "y" = false ->
  nonempty (strip sel) = true ->
  pick cands (strip sel) = Raise e ->
  exists st',
    choose cands st = (Ok None, emit (Line "Invalid selection, skipped") st')
    /\ writes st' = writes st /\ world st' = world st /\ stdin st' = rest.
Proof.
  intros Htop Hin Hyn Hsel Hpick. unfold choose.
  unfold bind at 1. unfold query at 1. rewrite Htop.
  unfold bind at 1. unfold input at 1. cbn [emit stdin]. rewrite Hin, Hyn.
  unfold bind at 1. unfold input at 1. cbn [emit stdin].
  rewrite Hsel, Hpick. eexists. split; [reflexivity|done].
Qed.

(** The prompt accepts index "0" and chooses the last candidate. *)
Lemma choose_zero_picks_last {W : Type} (cands : list candidate) (c : candidate)
    (yn : string) (rest : list string) (st : St W) :
  last cands = Some c ->
  String.eqb (lower (strip yn)) "y" = false ->
  stdin st = yn :: "0" :: rest ->
  (choose cands st).1 = Ok (Some c).
Proof.
  intros Hlast Hyn Hin. unfold choose.
  destruct cands as [|top cands]; [done|].
  unfold bind at 1. unfold query at 1.
  replace (getitem (top :: cands) 0) with (Ok top) by done.
  unfold bind at 1. unfold input at 1. cbn [emit stdin]. rewrite Hin. rewrite Hyn.
  unfold bind at 1. unfold input at 1. cbn [emit stdin].
  replace (strip "0") with "0" by done. cbn [nonempty].
  assert (pick (top :: cands) "0" = Ok c) as ->; [|done].
  unfold pick. replace (int "0") with (Ok 0) by done.
  unfold getitem. replace (0 - 1 <? 0) with true by done.
  rewrite last_lookup in Hlast.
  set (n := length (top :: cands)) in *.
  assert (0 < n)%nat by (unfold n; simpl; lia).
  replace (0 <=? 0 - 1 + Z.of_nat n) with true by lia.
  replace (0 - 1 + Z.of_nat n <? Z.of_nat n) with true by lia.
  replace (Z.to_nat (0 - 1 + Z.of_nat n)) with (Nat.pred n) by lia.
  cbn [andb]. by rewrite Hlast.
Qed.

End Loop.


(* ===================================================================== *)
(** * Runs on the in-memory system                                        *)
(* ===================================================================== *)

Module Runs.
Import AssignFromViber Memory Loop.

Definition ann_c : candidate := enrich ∅ [(5, 2); (7, 1)] [] ann.
Definition bob_c : candidate := enrich ∅ [(5, 2); (7, 1)] [] bob.

Definition counts0 : list (Z * Z) := [(5, 2); (7, 1)].

Lemma dry_run_reports_without_write_witness :
  let st := start alpha ["y"] in
  let shown := present gateway plain fix_login "Alpha" counts0 [] [5; 7] st in
  let chosen := choose [ann_c; bob_c] shown.2 in
  shown = (Ok [ann_c; bob_c], shown.2)
  /\ chosen = (Ok (Some ann_c), chosen.2)
  /\ assign_among gateway plain true fix_login "Alpha" counts0 [] [5; 7] st
     = (Ok tt, emit (Line "Dry-run: would assign task 100 to Ann") chosen.2)
  /\ writes chosen.2 = [].
Proof.
  intros st shown chosen.
  assert (shown = (Ok [ann_c; bob_c], shown.2)) as H1 by (vm_compute; reflexivity).
  assert (chosen = (Ok (Some ann_c), chosen.2)) as H2 by (vm_compute; reflexivity).
  split; [exact H1|]. split; [exact H2|].
  destruct (dry_run_reports_without_write gateway plain fix_login "Alpha" counts0 []
              [5; 7] [ann_c; bob_c] ann_c st shown.2 chosen.2
              ltac:(discriminate) H1 H2) as (Hrun & Hw & _).
  split; [exact Hrun|exact Hw].
Defined.

Lemma write_only_with_candidates_witness :
  let st := start idle [] in
  let st1 := (select_task gateway "TSK-AB-1" st).2 in
  (* no candidate: the ticket is reported and the next code is processed *)
  run_codes gateway plain false ["TSK-AB-1"; "TSK-X-9"] st
  = run_codes gateway plain false ["TSK-X-9"] (emit (Line "No candidates found") st1)
  /\ writes st1 = []
  (* a write: the candidate ids were not empty *)
  /\ writes (process_code gateway plain false "TSK-AB-1" (start alpha ["y"])).2
     = [(100, 5)]
  /\ exists task pname counts recent ids st4,
       process_code gateway plain false "TSK-AB-1" (start alpha ["y"])
       = assign_among gateway plain false task pname counts recent ids st4
       /\ ids <> [].
Proof.
  intros st st1.
  destruct (write_only_with_candidates gateway plain false) as (_ & Hwrite & Hloop).
  destruct (Hloop "TSK-AB-1" ["TSK-X-9"] fix_login 42 "Alpha" [1] [] [] None
              st st1 st1 st1 st1)
    as (Hrun & Hw & _); try (vm_compute; reflexivity).
  split; [exact Hrun|]. split; [exact Hw|].
  assert (writes (process_code gateway plain false "TSK-AB-1" (start alpha ["y"])).2
          = [(100, 5)]) as Hrun' by (vm_compute; reflexivity).
  split; [exact Hrun'|].
  destruct (Hwrite "TSK-AB-1" (start alpha ["y"]))
    as (task & pname & counts & recent & ids & st4 & _ & _ & Heq & _ & Hids & _).
  { rewrite Hrun'. discriminate. }
  by exists task, pname, counts, recent, ids, st4.
Defined.

Lemma stage_fallback_witness :
  (* the configured names match nothing, an unfolded stage exists *)
  process_code gateway plain true "TSK-AB-1" (start renamed ["y"])
  = assign_with_stages gateway plain true fix_login 42 "Alpha" [1]
      (select_task gateway "TSK-AB-1" (start renamed ["y"])).2
  (* every stage is folded: the ticket is skipped, the loop goes on *)
  /\ run_codes gateway plain false ["TSK-AB-1"; "TSK-X-9"] (start folded ["y"])
     = run_codes gateway plain false ["TSK-X-9"]
         (emit (Line "No open stages found; skipping")
            (select_task gateway "TSK-AB-1" (start folded ["y"])).2)
  /\ writes (run_codes gateway plain false ["TSK-AB-1"; "TSK-X-9"]
               (start folded ["y"])).2 = [].
Proof.
  split; [|split].
  - refine (proj2 (proj1 (stage_fallback gateway plain true "TSK-AB-1" [] fix_login 42
                            "Alpha" [ {| s_id := 1; s_name := "Doing" |} ]
                            (start renamed ["y"])
                            (select_task gateway "TSK-AB-1" (start renamed ["y"])).2
                            _ _ _ _) _));
      first [ discriminate | right; vm_compute; reflexivity | vm_compute; reflexivity ].
  - refine (proj1 (proj2 (proj2 (stage_fallback gateway plain false "TSK-AB-1" ["TSK-X-9"]
                            fix_login 42 "Alpha" []
                            (start folded ["y"])
                            (select_task gateway "TSK-AB-1" (start folded ["y"])).2
                            _ _ _ _) _)));
      first [ right; vm_compute; reflexivity | vm_compute; reflexivity ].
  - vm_compute; reflexivity.
Defined.

Lemma preferred_candidates_witness :
  pick_project_key (preferred_developers prefers_cy) 42 "Alpha" = Some "Alpha"
  /\ preferred_developers prefers_cy !! "Alpha" = Some ["cy"; "ghost"]
  /\ search_user gateway alpha "cy" = Ok [cy]
  /\ search_user gateway alpha "ghost" = Ok []
  /\ exists ids st',
       preferred gateway prefers_cy 42 "Alpha" (start alpha []) = (Ok (Some ids), st')
       /\ (9 ∈ ids) /\ (5 ∉ ids)
       /\ candidate_ids (Some ids) counts0 = ids
       /\ exists c,
            c ∈ rank (enrich (developer_roles prefers_cy) counts0 [] <$> [cy])
            /\ c_id c = 9 /\ c_name c = "Cy" /\ c_count c = 0.
Proof.
  assert (pick_project_key (preferred_developers prefers_cy) 42 "Alpha" = Some "Alpha")
    as H1 by (vm_compute; reflexivity).
  assert (preferred_developers prefers_cy !! "Alpha" = Some ["cy"; "ghost"])
    as H2 by (vm_compute; reflexivity).
  assert (search_user gateway alpha "cy" = Ok [cy]) as H3 by (vm_compute; reflexivity).
  assert (search_user gateway alpha "ghost" = Ok []) as H4 by (vm_compute; reflexivity).
  do 4 (split; [assumption|]).
  destruct (preferred_candidates gateway prefers_cy 42 "Alpha" "Alpha" ["cy"; "ghost"]
              (start alpha []) H1 eq_refl H2) as (ids & st' & Hrun & Hmem & Hids & Hrank).
  - intros ident Hin. rewrite !elem_of_cons, elem_of_nil in Hin.
    destruct Hin as [->|[->|[]]]; eauto.
  - exists "cy", cy, []. split; [left|exact H3].
  - exists ids, st'. split; [exact Hrun|]. split; [|split; [|split; [apply Hids|]]].
    + apply Hmem. exists "cy", cy, []. split; [left|]. split; [exact H3|reflexivity].
    + intros Hin. apply Hmem in Hin as (ident & u & us & Hi & Hs & Hu).
      rewrite !elem_of_cons, elem_of_nil in Hi.
      destruct Hi as [->|[->|[]]].
      * change (search_user gateway alpha "cy" = Ok (u :: us)) in Hs.
        rewrite H3 in Hs. injection Hs as <- <-. discriminate Hu.
      * change (search_user gateway alpha "ghost" = Ok (u :: us)) in Hs.
        rewrite H4 in Hs. discriminate Hs.
    + assert (ids = [9]) as ->.
      { assert (preferred gateway prefers_cy 42 "Alpha" (start alpha [])
                = (Ok (Some [9]), (preferred gateway prefers_cy 42 "Alpha"
                                     (start alpha [])).2)) as Hc
          by (vm_compute; reflexivity).
        rewrite Hrun in Hc. by injection Hc as ->. }
      destruct (Hrank fix_login counts0 [] [cy] (start alpha [])) as [_ Hzero];
        [vm_compute; reflexivity|].
      apply (Hzero cy); [left|reflexivity].
Defined.

(** C3, as stated, fails: the policy has an entry for the project, none
    of its identifiers resolves, and the candidates are the developers of
    the workload map, who are outside the preference list. *)
Lemma unresolved_preference_falls_back :
  pick_project_key (preferred_developers prefers_ghost) 42 "Alpha" = Some "Alpha"
  /\ preferred_developers prefers_ghost !! "Alpha" = Some ["ghost"]
  /\ search_user gateway alpha "ghost" = Ok []
  /\ (preferred gateway prefers_ghost 42 "Alpha" (start alpha [])).1 = Ok (Some [])
  /\ candidate_ids (Some []) counts0 = [5; 7]
  /\ stdout (run_codes gateway prefers_ghost true ["TSK-AB-1"] (start alpha ["y"])).2
     = [ Line (String "010" "=== TSK-AB-1 ===");
         Taskss [fix_login];
         Line "Preferred devs not found: ghost";
         Line "Task: Fix login";
         Line "Project: Alpha | Priority: 1 | Current: -";
         Line "Candidates (most project tasks first):";
         Line "1. Ann | - | open tasks in project: 2";
         Line "2. Bob | - | open tasks in project: 1";
         Prompt "Assign to Ann? [y/N] ";
         Line "Dry-run: would assign task 100 to Ann" ].
Proof. repeat split; vm_compute; reflexivity. Qed.

(** C2, at a failing input.  Two candidates are listed, the operator
    declines the first and enters index "0": the last candidate is chosen
    and the write is issued; no "Invalid selection" is reported. *)
Lemma index_zero_assigns_last_candidate :
  let r := run_codes gateway plain false ["TSK-AB-1"] (start alpha ["n"; "0"]) in
  r.1 = Ok tt
  /\ writes r.2 = [(100, 7)]
  /\ stdout r.2
     = [ Line (String "010" "=== TSK-AB-1 ===");
         Taskss [fix_login];
         Line "Task: Fix login";
         Line "Project: Alpha | Priority: 1 | Current: -";
         Line "Candidates (most project tasks first):";
         Line "1. Ann | - | open tasks in project: 2";
         Line "2. Bob | - | open tasks in project: 1";
         Prompt "Assign to Ann? [y/N] ";
         Prompt "Enter candidate number to assign (or blank to skip): ";
         Line "Assigned to Bob" ].
Proof. repeat split; vm_compute; reflexivity. Qed.

(** The same prompt with index "9" reports the invalid selection. *)
Lemma index_nine_is_invalid :
  let r := run_codes gateway plain false ["TSK-AB-1"] (start alpha ["n"; "9"]) in
  r.1 = Ok tt
  /\ writes r.2 = []
  /\ last (stdout r.2) = Some (Line "Invalid selection, skipped").
Proof. repeat split; vm_compute; reflexivity. Qed.

End Runs.


(* ===================================================================== *)
(** * Properties of the digest                                            *)
(* ===================================================================== *)

Module Digest.
Import DailyMorning PyFacts.

(** The tickets of one group, in the order of the query. *)
Definition members (pname : string) (tasks : list task) : list task :=
  filter (fun t => group_name t = pname) tasks.

(** The block of one group as the listing shows it. *)
Definition block (tasks : list task) (pname : string) : list string :=
  pname :: (task_line pname <$> members pname tasks) ++ [""].

Lemma add_to_group_get grouped t p :
  od_get (add_to_group grouped t) p
  = if decide (group_name t = p)
    then Some (default [] (od_get grouped p) ++ [t])
    else od_get grouped p.
Proof.
  unfold add_to_group. destruct (decide (group_name t = p)) as [<-|Hne].
  - apply od_get_set_eq.
  - by apply od_get_set_ne.
Qed.

Lemma group_get_from tasks grouped p :
  od_get (fold_left add_to_group tasks grouped) p
  = match members p tasks with
    | [] => od_get grouped p
    | ts => Some (default [] (od_get grouped p) ++ ts)
    end.
Proof.
  revert grouped. induction tasks as [|t l IH]; intros grouped; [done|].
  cbn [fold_left]. rewrite IH, add_to_group_get. unfold members.
  rewrite filter_cons. destruct (decide (group_name t = p)) as [Heq|Hne].
  - cbn [default]. destruct (filter _ l); [done|].
    unfold id. by rewrite <- app_assoc.
  - done.
Qed.

Lemma group_get tasks p :
  default [] (od_get (group tasks) p) = members p tasks.
Proof.
  unfold group. rewrite group_get_from. by destruct (members p tasks).
Qed.

Lemma group_keys tasks p :
  p ∈ od_keys (group tasks) <-> exists t, t ∈ tasks /\ group_name t = p.
Proof.
  destruct (decide (p ∈ od_keys (group tasks))) as [Hin|Hnin].
  - split; [intros _|done].
    destruct (od_get (group tasks) p) as [ts|] eqn:Hg.
    + unfold group in Hg. rewrite group_get_from in Hg.
      destruct (members p tasks) as [|t ts'] eqn:Hm; [done|].
      exists t. assert (t ∈ members p tasks) as Ht by (rewrite Hm; left).
      apply list_elem_of_filter in Ht as [? ?]. done.
    + by apply od_get_None in Hg.
  - split; [done|]. intros (t & Ht & Hp). destruct Hnin.
    apply dec_stable. intros Hnin. apply od_get_None in Hnin.
    unfold group in Hnin. rewrite group_get_from in Hnin.
    assert (t ∈ members p tasks) as Hm by (by apply list_elem_of_filter).
    destruct (members p tasks); [by apply elem_of_nil in Hm|done].
Qed.

Lemma group_keys_NoDup tasks : NoDup (od_keys (group tasks)).
Proof.
  unfold group. generalize (NoDup_nil_2 (A:=string)).
  change (@nil string) with (od_keys (@nil (string * list task))).
  generalize (@nil (string * list task)).
  induction tasks as [|t l IH]; intros g Hg; [done|].
  cbn [fold_left]. apply IH. unfold add_to_group. by apply od_keys_set_NoDup.
Qed.

Lemma ltb_before_trans (x y z : string) :
  before String.ltb x y -> before String.ltb y z -> before String.ltb x z.
Proof.
  unfold before. intros Hyx Hzy.
  destruct (String.ltb z x) eqn:Hzx; [|done].
  destruct (ltb_trichotomy x y) as [Hxy|[->|Hyx']]; [|congruence..].
  pose proof (ltb_trans _ _ _ Hzx Hxy). congruence.
Qed.

Lemma headers_ascending grouped :
  NoDup (od_keys grouped) ->
  StronglySorted (fun a b => String.ltb a b = true) (headers grouped).
Proof.
  intros Hnd. unfold headers.
  assert (NoDup (sorted String.ltb (od_keys grouped))) as Hnd'
    by (by rewrite sorted_perm).
  pose proof (sorted_sorted String.ltb ltb_asym ltb_before_trans (od_keys grouped)) as Hs.
  induction Hs as [|x l Hl IH Hx]; constructor.
  - apply IH. by apply NoDup_cons in Hnd' as [_ ?].
  - apply NoDup_cons in Hnd' as [Hx' _].
    rewrite Forall_forall in Hx |- *. intros y Hy.
    specialize (Hx y Hy). unfold before in Hx.
    destruct (ltb_trichotomy x y) as [?|[->|?]]; [done|done|congruence].
Qed.

(** C10. The listing is the header line, a blank line, and one block per
    group name: the name, the lines of the tickets of the group in the
    order of the query, a blank line.  The group names are printed in
    strictly ascending lexicographic order and are exactly the group
    names of the tickets.  Every ticket is listed in the block of its
    group; a ticket without project belongs to the group "No Project",
    and a missing code or title is shown as "-". *)
Theorem digest_groups (date_str by_ : string) (tasks : list task) :
  let hs := headers (group tasks) in
  digest date_str by_ tasks
  = [date_str +:+ " To Do List By " +:+ by_; ""] ++ mjoin (block tasks <$> hs)
  /\ StronglySorted (fun a b => String.ltb a b = true) hs
  /\ (forall p, p ∈ hs <-> exists t, t ∈ tasks /\ group_name t = p)
  /\ (forall t, t ∈ tasks ->
        group_name t ∈ hs
        /\ task_line (group_name t) t ∈ block tasks (group_name t)
        /\ task_line (group_name t) t ∈ digest date_str by_ tasks)
  /\ (forall t, t_project_id t = None ->
        group_name t = "No Project"
        /\ task_line (group_name t) t
           = or_dash (t_code t) +:+ " - No Project - " +:+ or_dash (t_name t))
  /\ or_dash None = "-"
  /\ or_dash (Some "") = "-".
Proof.
  intros hs.
  assert (digest date_str by_ tasks
          = [date_str +:+ " To Do List By " +:+ by_; ""] ++ mjoin (block tasks <$> hs))
    as Heq.
  { unfold digest. do 2 f_equal. apply list_fmap_ext. intros _ p _.
    unfold group_lines, block. by rewrite group_get. }
  assert (forall p, p ∈ hs <-> exists t, t ∈ tasks /\ group_name t = p) as Hhs.
  { intros p. unfold hs, headers. rewrite sorted_perm. apply group_keys. }
  split; [exact Heq|]. split; [apply headers_ascending, group_keys_NoDup|].
  split; [exact Hhs|]. split; [|split; [|done]].
  - intros t Ht.
    assert (group_name t ∈ hs) as Hin by (apply Hhs; by exists t).
    assert (task_line (group_name t) t ∈ block tasks (group_name t)) as Hline.
    { unfold block. right. apply elem_of_app. left.
      apply list_elem_of_fmap_2. by apply list_elem_of_filter. }
    split; [done|]. split; [done|].
    rewrite Heq. apply elem_of_app. right.
    apply list_elem_of_join. exists (block tasks (group_name t)).
    split; [done|]. by apply list_elem_of_fmap_2.
  - intros t Hp. unfold task_line, group_name. by rewrite Hp.
Qed.

Definition orphan : task :=
  {| t_code := Some "TSK-Z-9"; t_name := None; t_project_id := None |}.
Definition beta_task : task :=
  {| t_code := None; t_name := Some "Ship"; t_project_id := Some (7, "Beta") |}.
Definition alpha_task : task :=
  {| t_code := Some "TSK-AB-1"; t_name := Some "Fix login";
     t_project_id := Some (42, "Alpha") |}.

Lemma digest_groups_witness :
  digest "03 Nov 2026" "NMH" [orphan; beta_task; alpha_task; orphan]
  = [ "03 Nov 2026 To Do List By NMH"; "";
      "Alpha"; "TSK-AB-1 - Alpha - Fix login"; "";
      "Beta"; "- - Beta - Ship"; "";
      "No Project"; "TSK-Z-9 - No Project - -"; "TSK-Z-9 - No Project - -"; "" ]
  /\ "TSK-Z-9 - No Project - -"
     ∈ digest "03 Nov 2026" "NMH" [orphan; beta_task; alpha_task; orphan].
Proof.
  split; [vm_compute; reflexivity|].
  destruct (digest_groups "03 Nov 2026" "NMH" [orphan; beta_task; alpha_task; orphan])
    as (_ & _ & _ & Hin & _).
  apply (Hin orphan). left.
Defined.

End Digest.


(* ===================================================================== *)
(** * [load_dotenv] (both scripts)                                        *)
(* ===================================================================== *)

Module Dotenv.

(** [s.lstrip(chars)], [s.rstrip(chars)], [s.strip(chars)] for a set of
    characters given by its membership test. *)
Fixpoint lstrip_of (p : ascii -> bool) (s : string) : string :=
  match s with
  | String c s' => if p c then lstrip_of p s' else s
  | EmptyString => EmptyString
  end.

Fixpoint rstrip_of (p : ascii -> bool) (s : string) : string :=
  match s with
  | String c s' =>
      match rstrip_of p s' with
      | EmptyString => if p c then EmptyString else String c EmptyString
      | r => String c r
      end
  | EmptyString => EmptyString
  end.

Definition strip_of (p : ascii -> bool) (s : string) : string :=
  rstrip_of p (lstrip_of p s).

(** [line.startswith("#")] *)
Definition starts_with_hash (line : string) : bool :=
  match line with
  | String c _ => Ascii.eqb c "#"
  | EmptyString => false
  end.

(** [line.split("=", 1)] when ["=" in line]; [None] when the line has no
    ["="]. *)
Fixpoint split_eq (line : string) : option (string * string) :=
  match line with
  | EmptyString => None
  | String c s' =>
      if Ascii.eqb c "=" then Some (EmptyString, s')
      else match split_eq s' with
           | Some (k, v) => Some (String c k, v)
           | None => None
           end
  end.

(** The key and the value that one raw line of the file stands for;
    [None] for a blank line, a comment and a line without ["="]. *)
Definition parse_line (raw : string) : option (string * string) :=
  let line := strip raw in
  if negb (nonempty line) || starts_with_hash line then None
  else
    match split_eq line with
    | None => None
    | Some (key, val) =>
        Some (strip key,
              strip_of (Ascii.eqb "'") (strip_of (Ascii.eqb "034") (strip val)))
    end.

Fixpoint has_nul (s : string) : bool :=
  match s with
  | String c s' => Ascii.eqb c "000" || has_nul s'
  | EmptyString => false
  end.

(** [os.environ[key] = val]: a NUL character in the name or in the value
    raises [ValueError]. *)
Definition setenv (environ : gmap string string) (key val : string)
    : res (gmap string string) :=
  if has_nul key || has_nul val then Raise ValueError
  else Ok (<[key := val]> environ).

(** The body of the loop over the lines. *)
Definition load_line (environ : gmap string string) (raw : string)
    : res (gmap string string) :=
  match parse_line raw with
  | None => Ok environ
  | Some (key, val) =>
      if nonempty key && bool_decide (environ !! key = None)
      then setenv environ key val
      else Ok environ
  end.

Fixpoint load_lines (environ : gmap string string) (lines : list string)
    : res (gmap string string) :=
  match lines with
  | [] => Ok environ
  | raw :: rest =>
      match load_line environ raw with
      | Ok environ' => load_lines environ' rest
      | Raise e => Raise e
      end
  end.

(** [load_dotenv(path)] on the process environment [environ]; [file] is
    [None] when the path does not exist, else the lines of the file (a
    readable text file). *)
Definition load_dotenv (file : option (list string)) (environ : gmap string string)
    : res (gmap string string) :=
  match file with
  | None => Ok environ
  | Some lines => load_lines environ lines
  end.

End Dotenv.

Module DotenvFacts.
Import Dotenv.

(** The value of the first line of the file that stands for [k]. *)
Fixpoint first_value (k : string) (lines : list string) : option string :=
  match lines with
  | [] => None
  | raw :: rest =>
      match parse_line raw with
      | Some (key, val) => if decide (key = k) then Some val else first_value k rest
      | None => first_value k rest
      end
  end.

Lemma setenv_Ok environ key val environ' :
  setenv environ key val = Ok environ' -> environ' = <[key := val]> environ.
Proof. unfold setenv. destruct (has_nul key || has_nul val); congruence. Qed.

Lemma load_lines_lookup lines : forall environ environ' k,
  load_lines environ lines = Ok environ' ->
  environ' !! k
  = match environ !! k with
    | Some v => Some v
    | None => if nonempty k then first_value k lines else None
    end.
Proof.
  induction lines as [|raw rest IH]; intros environ environ' k; cbn [load_lines].
  - intros [= <-]. destruct (environ !! k); [done|]. by destruct (nonempty k).
  - destruct (load_line environ raw) as [env1|e] eqn:Hl; [|done].
    intros Hrest. rewrite (IH _ _ k Hrest). clear IH Hrest.
    unfold load_line in Hl. cbn [first_value].
    destruct (parse_line raw) as [[key val]|]; [|by injection Hl as <-].
    destruct (nonempty key) eqn:Hne; cbn [andb] in Hl.
    + destruct (bool_decide_reflect (environ !! key = None)) as [Hnone|Hsome].
      * apply setenv_Ok in Hl as ->.
        destruct (decide (key = k)) as [<-|Hk].
        -- by rewrite lookup_insert_eq, Hnone, Hne.
        -- by rewrite lookup_insert_ne.
      * injection Hl as <-.
        destruct (decide (key = k)) as [<-|Hk]; [|done].
        by destruct (environ !! key).
    + injection Hl as <-.
      destruct (decide (key = k)) as [<-|Hk]; [|done].
      rewrite Hne. by destruct (environ !! key).
Qed.

Lemma first_value_is_Some lines raw key val :
  raw ∈ lines -> parse_line raw = Some (key, val) -> is_Some (first_value key lines).
Proof.
  induction lines as [|r rest IH]; intros Hin Hp; [by apply elem_of_nil in Hin|].
  cbn [first_value]. apply elem_of_cons in Hin as [<-|Hin].
  - rewrite Hp. by rewrite decide_True.
  - destruct (parse_line r) as [[k' v']|]; [|by apply IH].
    destruct (decide (k' = key)); [done|by apply IH].
Qed.

Lemma load_lines_fixed lines environ :
  (forall raw, raw ∈ lines -> load_line environ raw = Ok environ) ->
  load_lines environ lines = Ok environ.
Proof.
  induction lines as [|raw rest IH]; intros Hall; [done|].
  cbn [load_lines]. rewrite Hall by left. apply IH. intros r Hr. apply Hall. by right.
Qed.


(** X2. Loading is idempotent: a second load of the same file changes
    nothing. *)
Theorem load_dotenv_idempotent file environ environ' :
  load_dotenv file environ = Ok environ' ->
  load_dotenv file environ' = Ok environ'.
Proof.
  destruct file as [lines|]; cbn [load_dotenv]; [|done].
  intros H. apply load_lines_fixed. intros raw Hin. unfold load_line.
  destruct (parse_line raw) as [[key val]|] eqn:Hp; [|done].
  destruct (nonempty key) eqn:Hne; [|done]. cbn [andb].
  rewrite bool_decide_eq_false_2; [done|].
  rewrite (load_lines_lookup _ _ _ key H), Hne.
  destruct (environ !! key); [done|].
  destruct (first_value_is_Some lines raw key val Hin Hp) as [v ->]. done.
Qed.

Definition sample_env : gmap string string := {[ "ODOO_DB" := "prod" ]}.
Definition sample_file : list string :=
  [ "# credentials"; "";
    "ODOO_URL = 'https://odoo.example.org'";
    "ODOO_DB=test";
    "export";
    "ODOO_URL=http://other" ].


Lemma load_dotenv_idempotent_witness :
  load_dotenv (Some sample_file) sample_env
  = Ok (<[ "ODOO_URL" := "https://odoo.example.org" ]> sample_env)
  /\ load_dotenv (Some sample_file)
       (<[ "ODOO_URL" := "https://odoo.example.org" ]> sample_env)
     = Ok (<[ "ODOO_URL" := "https://odoo.example.org" ]> sample_env).
Proof.
  assert (load_dotenv (Some sample_file) sample_env
          = Ok (<[ "ODOO_URL" := "https://odoo.example.org" ]> sample_env)) as H
    by (vm_compute; reflexivity).
  split; [exact H|]. exact (load_dotenv_idempotent _ _ _ H).
Defined.

End DotenvFacts.


(* ===================================================================== *)
(** * [extract_codes]                                                     *)
(* ===================================================================== *)

Module Extract.

Definition is_upper (c : ascii) : bool :=
  let n := code c in (65 <=? n) && (n <=? 90).

Definition is_lower (c : ascii) : bool :=
  let n := code c in (97 <=? n) && (n <=? 122).

(** [\w] on the ASCII range. *)
Definition is_word (c : ascii) : bool :=
  is_digit c || is_upper c || is_lower c || Ascii.eqb c "_".

(** [[A-Z0-9]] *)
Definition is_code_char (c : ascii) : bool := is_upper c || is_digit c.

(** The constructs of [CODE_RE]. *)
Inductive re : Type :=
| Lit (c : ascii)                 (** one literal character *)
| PlusClass (p : ascii -> bool)   (** a greedy [+] over a character class *)
| WordBoundary                    (** [\b] *)
| Cat (r1 r2 : re).

(** A position in the text: the character before it, if any, and the
    rest of the text. *)
Definition pos : Type := option ascii * string.

Definition word_before (prev : option ascii) : bool :=
  match prev with Some c => is_word c | None => false end.

Definition word_at (s : string) : bool :=
  match s with String c _ => is_word c | EmptyString => false end.

(** The ends of the runs of [p] that start at the position, the longest
    first; [n] counts the characters consumed so far. *)
Fixpoint plus_from (p : ascii -> bool) (s : string) (n : nat) : list (nat * pos) :=
  match s with
  | String c s' =>
      if p c then plus_from p s' (S n) ++ [(S n, (Some c, s'))] else []
  | EmptyString => []
  end.

(** The backtracking matcher: the ways in which [r] matches at a
    position, in the order in which they are tried, each with the number
    of characters consumed and the position reached. *)
Fixpoint run (r : re) (n : nat) (p : pos) : list (nat * pos) :=
  match r with
  | Lit c =>
      match p.2 with
      | String a s' => if Ascii.eqb a c then [(S n, (Some a, s'))] else []
      | EmptyString => []
      end
  | PlusClass q => plus_from q p.2 n
  | WordBoundary => if xorb (word_before p.1) (word_at p.2) then [(n, p)] else []
  | Cat r1 r2 => flat_map (fun m => run r2 m.1 m.2) (run r1 n p)
  end.

(** [re.compile(r"\bTSK-[A-Z0-9]+-\d+\b")] *)
Definition CODE_RE : re :=
  Cat WordBoundary
 (Cat (Lit "T") (Cat (Lit "S") (Cat (Lit "K") (Cat (Lit "-")
 (Cat (PlusClass is_code_char)
 (Cat (Lit "-")
 (Cat (PlusClass is_digit) WordBoundary))))))).

(** [CODE_RE.findall(text)]: the matches from left to right, without
    overlap.  [skip] counts the characters of the last match that are
    still to be passed. *)
Fixpoint scan (prev : option ascii) (s : string) (skip : nat) : list string :=
  match s with
  | EmptyString => []
  | String c s' =>
      match skip with
      | S k => scan (Some c) s' k
      | O =>
          match run CODE_RE 0 (prev, s) with
          | m :: _ => substring 0 m.1 s :: scan (Some c) s' (Nat.pred m.1)
          | [] => scan (Some c) s' 0
          end
      end
  end.

Definition findall (text : string) : list string := scan None text 0.

(** [sorted(set(CODE_RE.findall(text)))] *)
Definition extract_codes (text : string) : list string :=
  sorted String.ltb (remove_dups (findall text)).

End Extract.

Module ExtractFacts.
Import Extract PyFacts.

(** ** Strings *)

Fixpoint all_chars (p : ascii -> bool) (s : string) : bool :=
  match s with
  | String c s' => p c && all_chars p s'
  | EmptyString => true
  end.

Lemma append_cons (x : ascii) (a b : string) : String x a +:+ b = String x (a +:+ b).
Proof. reflexivity. Qed.






Lemma all_chars_append p (a b : string) :
  all_chars p (a +:+ b) = all_chars p a && all_chars p b.
Proof.
  induction a as [|x a IH]; [done|].
  rewrite append_cons. cbn [all_chars]. by rewrite IH, andb_assoc.
Qed.

(** ** The strings that a pattern matches *)







(** ** [extract_codes] *)







End ExtractFacts.


(* ===================================================================== *)
(** * Further properties of the assignment loop                           *)
(* ===================================================================== *)

Module Engine.
Import AssignFromViber PyFacts.

(** ** Ranking keeps the order of equal keys *)

Lemma insert_filter {A} (lt : A -> A -> bool) (P : A -> Prop)
    `{forall x, Decision (P x)} (x : A) (l : list A) :
  (forall y, P y -> P x -> lt y x = false) ->
  filter P (insert lt x l) = filter P (x :: l).
Proof.
  intros Hkey. induction l as [|y l IH]; [done|]. cbn [insert].
  destruct (lt y x) eqn:Hlt; [|done].
  rewrite filter_cons, IH, !filter_cons.
  destruct (decide (P y)) as [Hy|Hy]; [|done].
  destruct (decide (P x)) as [Hx|Hx]; [|done].
  rewrite (Hkey y Hy Hx) in Hlt. discriminate.
Qed.

Lemma sorted_filter {A} (lt : A -> A -> bool) (P : A -> Prop)
    `{forall x, Decision (P x)} (l : list A) :
  (forall x y, P y -> P x -> lt y x = false) ->
  filter P (sorted lt l) = filter P l.
Proof.
  intros Hkey. induction l as [|x l IH]; [done|].
  unfold sorted in *. cbn [foldr].
  rewrite insert_filter by (intros; by apply Hkey).
  by rewrite !filter_cons, IH.
Qed.

(** X5. Ranking is stable: the candidates that have the same open-ticket
    count and the same display name stand in the ranked list in the order
    in which they were given. *)
Theorem rank_stable (n : Z) (name : string) (l : list candidate) :
  filter (fun c => c_count c = n /\ c_name c = name) (rank l)
  = filter (fun c => c_count c = n /\ c_name c = name) l.
Proof.
  apply sorted_filter. intros x y [Hy1 Hy2] [Hx1 Hx2].
  unfold cand_lt, sort_key, key_lt. cbn [fst snd].
  rewrite Hy1, Hy2, Hx1, Hx2, Z.ltb_irrefl, ltb_irrefl.
  by rewrite andb_false_r.
Qed.

(** ** The workload counts *)

(** X6. The count map of the aggregation has exactly one entry for each
    developer to whom some open record is assigned, and the entry is the
    number of these records; a developer without a record has no entry. *)
Theorem counts_exact (cutoff : datetime) (l : list open_task) :
  NoDup (od_keys (aggregate cutoff l).1)
  /\ (forall k, od_get (aggregate cutoff l).1 k
                = if Workload.load k l =? 0 then None else Some (Workload.load k l))
  /\ (forall k, k ∈ od_keys (aggregate cutoff l).1 <->
                exists t name, t ∈ l /\ o_user_id t = Some (k, name)).
Proof.
  unfold aggregate. rewrite Workload.aggregate_split. cbn [fst].
  assert (forall k, od_get (fold_left Workload.count_step l []) k
                    = if Workload.load k l =? 0 then None
                      else Some (Workload.load k l)) as Hget.
  { intros k. rewrite Workload.counts_get. cbn [od_get default].
    by destruct (Workload.load k l =? 0). }
  split; [|split; [exact Hget|]].
  - clear Hget. generalize (NoDup_nil_2 (A:=Z)).
    change (@nil Z) with (od_keys (@nil (Z * Z))).
    generalize (@nil (Z * Z)).
    induction l as [|t l IH]; intros counts Hnd; [done|].
    cbn [fold_left]. apply IH. unfold Workload.count_step.
    destruct (o_user_id t) as [[u n]|]; [|done]. by apply od_keys_set_NoDup.
  - intros k.
    assert (k ∈ od_keys (fold_left Workload.count_step l []) <->
            Workload.load k l <> 0) as ->.
    { split.
      - intros Hin Hz.
        assert (od_get (fold_left Workload.count_step l []) k = None) as Hn
          by (by rewrite Hget, Hz).
        by apply od_get_None in Hn.
      - intros Hne.
        destruct (decide (k ∈ od_keys (fold_left Workload.count_step l [])))
          as [|Hnin]; [done|].
        apply od_get_None in Hnin. rewrite Hget in Hnin.
        by destruct (Z.eqb_spec (Workload.load k l) 0). }
    unfold Workload.load. split.
    + intros Hne.
      destruct (List.filter _ l) as [|t ts] eqn:Hf; [done|].
      assert (In t (List.filter
                (fun t => match o_user_id t with
                          | Some (u, _) => u =? k
                          | None => false
                          end) l)) as Hin by (rewrite Hf; left; done).
      apply filter_In in Hin as [Hin Hu].
      destruct (o_user_id t) as [[u name]|] eqn:Ht; [|done].
      apply Z.eqb_eq in Hu as ->. exists t, name.
      split; [by apply list_elem_of_In|done].
    + intros (t & name & Hin & Ht).
      assert (In t (List.filter
                (fun t => match o_user_id t with
                          | Some (u, _) => u =? k
                          | None => false
                          end) l)) as Hf.
      { apply filter_In. split; [by apply list_elem_of_In|].
        rewrite Ht. apply Z.eqb_refl. }
      destruct (List.filter _ l); [done|]. cbn [length]. lia.
Qed.

(** ** The confirm-or-override prompt *)


Lemma int_nonempty (s : string) (k : Z) : int s = Ok k -> strip s <> EmptyString.
Proof. unfold int. intros H Hs. rewrite Hs in H. discriminate H. Qed.




(** ** What one reference code can write *)

Lemma getitem_member {A} (l : list A) (i : Z) (x : A) : getitem l i = Ok x -> x ∈ l.
Proof.
  intros H. apply getitem_Ok in H as [[_ H]|[_ H]]; by eapply list_elem_of_lookup_2.
Qed.

Lemma pick_member {A} (l : list A) (sel : string) (x : A) : pick l sel = Ok x -> x ∈ l.
Proof. unfold pick. destruct (int sel); [apply getitem_member|done]. Qed.

Lemma choose_member {W} (cands : list candidate) (st st' : St W) (top : candidate) :
  choose cands st = (Ok (Some top), st') -> top ∈ cands.
Proof.
  unfold choose. unfold bind at 1. unfold query at 1.
  destruct (getitem cands 0) as [top0|] eqn:Htop; [|done].
  unfold bind at 1. unfold input at 1. cbn [emit stdin].
  destruct (stdin st) as [|yn rest]; [done|].
  destruct (String.eqb (lower (strip yn)) "y").
  - intros [= <- _]. by eapply getitem_member.
  - unfold bind at 1. unfold input at 1. cbn [emit stdin].
    destruct rest as [|sel rest]; [done|].
    destruct (nonempty (strip sel)); [|done].
    destruct (pick cands (strip sel)) as [c|] eqn:Hpick; [|done].
    intros [= <- _]. by eapply pick_member.
Qed.

Lemma emit_all_frame {W} (ls : list string) (st : St W) :
  stdin (Loop.emit_all ls st) = stdin st
  /\ writes (Loop.emit_all ls st) = writes st
  /\ world (Loop.emit_all ls st) = world st
  /\ stdout (Loop.emit_all ls st) = stdout st ++ (Line <$> ls).
Proof.
  revert st. induction ls as [|l ls IH]; intros st.
  - cbn. by rewrite app_nil_r.
  - unfold Loop.emit_all in *. cbn [fold_left].
    destruct (IH (emit (Line l) st)) as (-> & -> & -> & ->).
    cbn [emit stdin writes world stdout fmap list_fmap].
    by rewrite <- app_assoc.
Qed.

Section Invariants.
Context {W : Type} (gw : Gateway W) (cfg : config).
Implicit Types (st : St W).

Lemma select_task_member code st task st1 :
  select_task gw code st = (Ok (Some task), st1) ->
  exists tasks, search_tasks_by_code gw (world st) code = Ok tasks /\ task ∈ tasks.
Proof.
  unfold select_task. unfold bind at 1. unfold print at 1.
  unfold bind at 1. unfold query at 1. cbn [emit world].
  destruct (search_tasks_by_code gw (world st) code) as [tasks|e]; [|done].
  unfold bind at 1.
  destruct tasks as [|t [|t' ts]].
  - done.
  - intros [= <- _]. exists [t]. split; [done|left].
  - unfold bind at 1. unfold print at 1.
    unfold bind at 1. rewrite Loop.print_all_ok.
    unfold bind at 1. unfold input at 1. cbn [emit stdin].
    rewrite (proj1 (emit_all_frame _ _)). cbn [emit stdin].
    destruct (stdin st) as [|sel rest]; [done|].
    destruct (pick (t :: t' :: ts) (strip sel)) as [x|] eqn:Hpick; [|done].
    intros [= <- _]. exists (t :: t' :: ts). split; [done|].
    by eapply pick_member.
Qed.

Lemma present_records task pname counts recent ids st cands st1 :
  present gw cfg task pname counts recent ids st = (Ok cands, st1) ->
  exists records,
    read_users gw (world st) ids = Ok records
    /\ cands = rank (enrich (developer_roles cfg) counts recent <$> records).
Proof.
  unfold present. unfold bind at 1. unfold query at 1.
  destruct (read_users gw (world st) ids) as [records|e]; [|done].
  unfold bind, print. rewrite Loop.print_all_ok.
  intros [= <- _]. by exists records.
Qed.

(** The loop body up to the candidate ids: these phases issue no write
    and leave the remote system as it is. *)
Lemma process_code_reaches dry code st :
  writes (process_code gw cfg dry code st).2 <> writes st ->
  exists task pname counts recent ids st1 st4,
    select_task gw code st = (Ok (Some task), st1)
    /\ process_code gw cfg dry code st
       = assign_among gw cfg dry task pname counts recent ids st4
    /\ writes st4 = writes st
    /\ world st4 = world st.
Proof.
  unfold process_code.
  pose proof (Loop.quiet_select_task gw code st) as [Hw1 Hd1].
  destruct (select_task gw code st) as [[[task|]|e] st1] eqn:Hsel; simpl in Hw1, Hd1;
    [rewrite (Loop.bind_ok _ _ _ _ _ Hsel)
    |rewrite (Loop.bind_ok _ _ _ _ _ Hsel); simpl; congruence
    |rewrite (Loop.bind_raise _ _ _ _ _ Hsel); simpl; congruence].
  unfold assign_task.
  destruct (t_project_id task) as [[pid pname]|]; [|simpl; congruence].
  pose proof (Loop.quiet_resolve_open_stages gw cfg st1) as [Hw2 Hd2].
  destruct (resolve_open_stages gw cfg st1) as [[[sids|]|e] st2] eqn:Hst;
    simpl in Hw2, Hd2;
    [rewrite (Loop.bind_ok _ _ _ _ _ Hst)
    |rewrite (Loop.bind_ok _ _ _ _ _ Hst); simpl; congruence
    |rewrite (Loop.bind_raise _ _ _ _ _ Hst); simpl; congruence].
  unfold assign_with_stages.
  pose proof (Loop.quiet_workload gw cfg pid sids st2) as [Hw3 Hd3].
  destruct (workload gw cfg pid sids st2) as [[[counts recent]|e] st3] eqn:Hwl;
    simpl in Hw3, Hd3;
    [rewrite (Loop.bind_ok _ _ _ _ _ Hwl)
    |rewrite (Loop.bind_raise _ _ _ _ _ Hwl); simpl; congruence].
  pose proof (Loop.quiet_preferred gw cfg pid pname st3) as [Hw4 Hd4].
  destruct (preferred gw cfg pid pname st3) as [[p|e] st4] eqn:Hpref;
    simpl in Hw4, Hd4;
    [rewrite (Loop.bind_ok _ _ _ _ _ Hpref)
    |rewrite (Loop.bind_raise _ _ _ _ _ Hpref); simpl; congruence].
  intros _.
  exists task, pname, counts, recent, (candidate_ids p counts), st1, st4.
  repeat split; congruence.
Qed.

Lemma assign_among_effect task pname counts recent ids st :
  writes (assign_among gw cfg false task pname counts recent ids st).2 <> writes st ->
  exists records u,
    read_users gw (world st) ids = Ok records
    /\ u ∈ records
    /\ writes (assign_among gw cfg false task pname counts recent ids st).2
       = writes st ++ [(t_id task, u_id u)].
Proof.
  unfold assign_among. destruct ids as [|i ids]; [done|].
  pose proof (Loop.quiet_present gw cfg task pname counts recent (i :: ids) st)
    as [Hw1 _].
  destruct (present gw cfg task pname counts recent (i :: ids) st)
    as [[cands|e] st1] eqn:Hp; simpl in Hw1;
    [rewrite (Loop.bind_ok _ _ _ _ _ Hp)
    |rewrite (Loop.bind_raise _ _ _ _ _ Hp); simpl; congruence].
  pose proof (Loop.quiet_choose cands st1) as [Hw2 _].
  destruct (choose cands st1) as [[[top|]|e] st2] eqn:Hc; simpl in Hw2;
    [rewrite (Loop.bind_ok _ _ _ _ _ Hc)
    |rewrite (Loop.bind_ok _ _ _ _ _ Hc); simpl; congruence
    |rewrite (Loop.bind_raise _ _ _ _ _ Hc); simpl; congruence].
  intros _.
  destruct (present_records _ _ _ _ _ _ _ _ Hp) as (records & Hr & ->).
  apply choose_member in Hc. unfold rank in Hc. rewrite sorted_perm in Hc.
  apply list_elem_of_fmap in Hc as (u & -> & Hu).
  exists records, u. split; [done|]. split; [done|].
  unfold commit, bind, write.
  destruct (write_assignee gw (world st2) (t_id task)
              (c_id (enrich (developer_roles cfg) counts recent u)))
    as [[[]|e] w']; simpl; congruence.
Qed.

Lemma process_code_effect dry code st :
  writes (process_code gw cfg dry code st).2 = writes st
  \/ (dry = false
      /\ exists tasks task ids records u,
           search_tasks_by_code gw (world st) code = Ok tasks
           /\ task ∈ tasks
           /\ read_users gw (world st) ids = Ok records
           /\ u ∈ records
           /\ writes (process_code gw cfg dry code st).2
              = writes st ++ [(t_id task, u_id u)]).
Proof.
  destruct (decide (writes (process_code gw cfg dry code st).2 = writes st))
    as [|Hne]; [by left|right].
  destruct dry.
  { destruct Hne. apply Loop.quiet_process_code_dry. }
  split; [done|].
  destruct (process_code_reaches _ _ _ Hne)
    as (task & pname & counts & recent & ids & st1 & st4 & Hsel & Heq & Hw4 & Hd4).
  destruct (select_task_member _ _ _ _ Hsel) as (tasks & Hs & Hin).
  rewrite Heq, <- Hw4 in Hne.
  destruct (assign_among_effect _ _ _ _ _ _ Hne) as (records & u & Hr & Hu & Hw).
  exists tasks, task, ids, records, u.
  rewrite Hd4 in Hr. rewrite Heq, Hw, Hw4. done.
Qed.


(** ** The console is only appended to and read from *)

(** A computation that only appends to standard output and only reads
    lines from the front of standard input. *)
Definition steady {A} (m : M W A) : Prop :=
  forall st,
    (exists out, stdout (m st).2 = stdout st ++ out)
    /\ (exists used, stdin st = used ++ stdin (m st).2).

Lemma steady_ret {A} (a : A) : steady (ret (W:=W) a).
Proof. intros st. split; [exists []; by rewrite app_nil_r|by exists []]. Qed.

Lemma steady_bind {A B} (m : M W A) (k : A -> M W B) :
  steady m -> (forall a, steady (k a)) -> steady (bind m k).
Proof.
  intros Hm Hk st. unfold bind.
  destruct (Hm st) as [[out Ho] [used Hu]].
  destruct (m st) as [[a|e] st1]; cbn [snd] in *.
  - destruct (Hk a st1) as [[out' Ho'] [used' Hu']].
    split.
    + exists (out ++ out'). by rewrite Ho', Ho, app_assoc.
    + exists (used ++ used'). by rewrite Hu, Hu', app_assoc.
  - split; [by exists out|by exists used].
Qed.

Lemma steady_emit p : steady (fun st : St W => (Ok tt, emit p st)).
Proof. intros st. split; [by exists [p]|by exists []]. Qed.

Lemma steady_print s : steady (print (W:=W) s).
Proof. apply steady_emit. Qed.

Lemma steady_print_all ls : steady (print_all (W:=W) ls).
Proof.
  induction ls as [|l ls IH]; cbn [print_all].
  - apply steady_ret.
  - apply steady_bind; [apply steady_print|done].
Qed.

Lemma steady_input prompt : steady (input (W:=W) prompt).
Proof.
  intros st. unfold input. cbn [emit stdin].
  destruct (stdin st) as [|l rest] eqn:E; cbn [snd stdout stdin emit]; rewrite ?E.
  - split; [by exists [Prompt prompt]|by exists []].
  - split; [by exists [Prompt prompt]|by exists [l]].
Qed.

Lemma steady_query {A} (q : W -> res A) : steady (query q).
Proof. intros st. split; [exists []; by rewrite app_nil_r|by exists []]. Qed.

Lemma steady_write tid uid : steady (write gw tid uid).
Proof.
  intros st. unfold write. destruct (write_assignee gw (world st) tid uid) as [r w].
  cbn [snd stdout stdin].
  split; [exists []; by rewrite app_nil_r|by exists []].
Qed.

Ltac steady_steps :=
  repeat first
    [ apply steady_ret | apply steady_print | apply steady_emit
    | apply steady_print_all | apply steady_input | apply steady_query
    | apply steady_write | assumption
    | apply steady_bind; [|intros ?]
    | match goal with
      | |- steady (match ?x with _ => _ end) => destruct x
      | |- steady (if ?x then _ else _) => destruct x
      end ].

Lemma steady_resolve_users_from resolved identifiers :
  steady (resolve_users_from gw resolved identifiers).
Proof.
  revert resolved. induction identifiers as [|i l IH]; intros resolved;
    cbn [resolve_users_from].
  - apply steady_ret.
  - apply steady_bind; [apply steady_query|]. intros us. apply IH.
Qed.

Lemma steady_process_code dry code : steady (process_code gw cfg dry code).
Proof.
  unfold process_code, select_task, assign_task, assign_with_stages,
    resolve_open_stages, workload, preferred, resolve_users, assign_among,
    present, choose, commit.
  steady_steps; apply steady_resolve_users_from.
Qed.

Lemma run_codes_effect dry codes : forall st,
  (exists ws, writes (run_codes gw cfg dry codes st).2 = writes st ++ ws
              /\ (length ws <= length codes)%nat
              /\ (dry = true -> ws = []))
  /\ (exists out, stdout (run_codes gw cfg dry codes st).2 = stdout st ++ out)
  /\ (exists used, stdin st = used ++ stdin (run_codes gw cfg dry codes st).2).
Proof.
  induction codes as [|code rest IH]; intros st.
  - cbn. split; [exists []|split; [exists []|exists []]];
      rewrite ?app_nil_r; repeat split; done.
  - cbn [run_codes]. unfold bind.
    pose proof (process_code_effect dry code st) as Hw.
    destruct (steady_process_code dry code st) as [[out Ho] [used Hu]].
    destruct (process_code gw cfg dry code st) as [[[]|e] st1]; cbn [snd] in *.
    + destruct (IH st1) as [(ws & Hws & Hlen & Hdry) [[out' Ho'] [used' Hu']]].
      split; [|split].
      * destruct Hw as [Hw|(Hd & _ & task & _ & _ & u & _ & _ & _ & _ & Hw)].
        -- exists ws. rewrite Hws, Hw. cbn [length]. split; [done|]. split; [lia|done].
        -- exists ((t_id task, u_id u) :: ws).
           rewrite Hws, Hw, <- app_assoc. cbn [length app].
           split; [done|]. split; [lia|]. intros ->. done.
      * exists (out ++ out'). by rewrite Ho', Ho, app_assoc.
      * exists (used ++ used'). by rewrite Hu, Hu', app_assoc.
    + split; [|split; [by exists out|by exists used]].
      destruct Hw as [Hw|(Hd & _ & task & _ & _ & u & _ & _ & _ & _ & Hw)].
      * exists []. rewrite Hw, app_nil_r. cbn [length]. split; [done|]. split; [lia|done].
      * exists [(t_id task, u_id u)]. cbn [length]. split; [done|]. split; [lia|].
        intros ->. done.
Qed.

(** X9. A run over a list of reference codes only appends to the log of
    writes, at most one write per code and none under dry-run; it only
    appends to standard output and only reads lines from the front of
    standard input. *)
Theorem run_codes_append_only dry codes st :
  (exists ws, writes (run_codes gw cfg dry codes st).2 = writes st ++ ws
              /\ (length ws <= length codes)%nat
              /\ (dry = true -> ws = []))
  /\ (exists out, stdout (run_codes gw cfg dry codes st).2 = stdout st ++ out)
  /\ (exists used, stdin st = used ++ stdin (run_codes gw cfg dry codes st).2).
Proof. apply run_codes_effect. Qed.


End Invariants.

Section Preference.
Context {W : Type} (gw : Gateway W) (cfg : config).
Implicit Types (st : St W).

Lemma pick_project_key_is_key (m : gmap string (list string)) pid pname k :
  pick_project_key m pid pname = Some k -> is_Some (m !! k).
Proof.
  unfold pick_project_key.
  repeat (match goal with |- context [decide ?P] => destruct (decide P) end);
    by intros [= <-].
Qed.

Lemma resolve_users_from_raise identifiers : forall resolved st e st',
  resolve_users_from gw resolved identifiers st = (Raise e, st') ->
  exists ident, ident ∈ identifiers /\ search_user gw (world st) ident = Raise e.
Proof.
  induction identifiers as [|i l IH]; intros resolved st e st'; [done|].
  cbn [resolve_users_from]. unfold bind at 1. unfold query at 1.
  destruct (search_user gw (world st) i) as [us|e'] eqn:Hs.
  - intros H. destruct (IH _ _ _ _ H) as (ident & Hin & Hr).
    exists ident. split; [by right|done].
  - intros [= <- _]. exists i. split; [left|done].
Qed.

(** X11. The key that [pick_project_key] returns is a key of the policy,
    chosen with the precedence project name, project id, ["default"]; so
    the lookup of the entry never fails, and the preferred-developer step
    raises only an exception that a user search raised. *)
Theorem preferred_fails_only_by_search pid pname :
  let m := preferred_developers cfg in
  (forall k, pick_project_key m pid pname = Some k -> is_Some (m !! k))
  /\ (is_Some (m !! pname) -> pick_project_key m pid pname = Some pname)
  /\ (m !! pname = None -> is_Some (m !! str pid) ->
      pick_project_key m pid pname = Some (str pid))
  /\ (m !! pname = None -> m !! str pid = None ->
      pick_project_key m pid pname
      = if decide (is_Some (m !! "default")) then Some "default" else None)
  /\ (forall st e,
        (preferred gw cfg pid pname st).1 = Raise e ->
        exists ident, search_user gw (world st) ident = Raise e).
Proof.
  intros m. split; [apply pick_project_key_is_key|].
  split; [|split; [|split]].
  - intros H. unfold pick_project_key. by rewrite decide_True.
  - intros Hn H. unfold pick_project_key.
    rewrite decide_False by (rewrite Hn; by intros [? ?]).
    by rewrite decide_True.
  - intros Hn Hp. unfold pick_project_key.
    rewrite decide_False by (rewrite Hn; by intros [? ?]).
    by rewrite decide_False by (rewrite Hp; by intros [? ?]).
  - intros st e. unfold preferred. fold m.
    destruct (pick_project_key m pid pname) as [key|] eqn:Hkey; [|done].
    destruct (nonempty key); [|done].
    destruct (pick_project_key_is_key _ _ _ _ Hkey) as [identifiers Hids].
    unfold bind at 1. unfold query at 1. rewrite Hids.
    unfold resolve_users. unfold bind at 1.
    destruct (resolve_users_from gw [] identifiers st) as [[resolved|e'] st1] eqn:Hr.
    + unfold bind. by destruct (missing_of resolved).
    + cbn [fst]. intros [= ->].
      destruct (resolve_users_from_raise _ _ _ _ _ Hr) as (ident & _ & Hs).
      by exists ident.
Qed.

Lemma missing_elem (resolved : list (string * option user)) k :
  k ∈ missing_of resolved <-> (k, None) ∈ resolved.
Proof.
  unfold missing_of. rewrite list_elem_of_omap. split.
  - intros ([k' [u|]] & Hin & Hk); [done|]. by injection Hk as ->.
  - intros Hin. by exists (k, None).
Qed.

Lemma missing_NoDup (resolved : list (string * option user)) :
  NoDup (od_keys resolved) -> NoDup (missing_of resolved).
Proof.
  unfold od_keys, missing_of. induction resolved as [|[k v] r IH]; [done|].
  cbn [fmap list_fmap omap list_omap fst]. rewrite NoDup_cons. intros [Hk Hr].
  destruct v as [u|]; [by apply IH|].
  apply NoDup_cons. split; [|by apply IH].
  intros Hin. apply missing_elem in Hin. destruct Hk.
  apply list_elem_of_fmap. by exists (k, None).
Qed.

(** X12. When every user search returns, [resolve_users] leaves the
    state as it is and gives one entry per distinct identifier; the
    identifiers reported as not found are exactly those whose search
    returned no user, each reported once. *)
Theorem missing_reported identifiers st :
  (forall ident, ident ∈ identifiers ->
     exists us, search_user gw (world st) ident = Ok us) ->
  exists resolved,
    resolve_users gw identifiers st = (Ok resolved, st)
    /\ NoDup (od_keys resolved)
    /\ (forall k, k ∈ od_keys resolved <-> k ∈ identifiers)
    /\ NoDup (missing_of resolved)
    /\ (forall k, k ∈ missing_of resolved <->
                  k ∈ identifiers /\ search_user gw (world st) k = Ok []).
Proof.
  intros Hall.
  set (resolved := fold_left (fun r ident => od_set r ident (Loop.found gw (world st) ident))
                     identifiers []).
  assert (NoDup (od_keys resolved)) as Hnd
    by apply Loop.resolved_NoDup, NoDup_nil_2.
  assert (forall k, od_get resolved k
                    = if bool_decide (k ∈ identifiers)
                      then Some (Loop.found gw (world st) k) else None) as Hget.
  { intros k. unfold resolved. by rewrite Loop.resolved_get. }
  exists resolved. split; [apply Loop.resolve_users_from_ok, Hall|].
  split; [done|]. split; [|split; [by apply missing_NoDup|]].
  - intros k. split.
    + intros Hin. destruct (decide (k ∈ identifiers)) as [|Hnin]; [done|].
      assert (od_get resolved k = None) as Hn
        by (by rewrite Hget, bool_decide_eq_false_2).
      by apply od_get_None in Hn.
    + intros Hin. destruct (decide (k ∈ od_keys resolved)) as [|Hnin]; [done|].
      apply od_get_None in Hnin. by rewrite Hget, bool_decide_eq_true_2 in Hnin.
  - intros k. rewrite missing_elem, (Loop.od_elem_get _ _ _ Hnd), Hget.
    destruct (bool_decide_reflect (k ∈ identifiers)) as [Hin|Hnin].
    + destruct (Hall k Hin) as [us Hus]. unfold Loop.found. rewrite Hus.
      destruct us as [|u us]; cbn [head]; split; try done.
      * by intros [_ [=]].
    + split; [done|]. by intros [? _].
Qed.

(** X13. In the loop the recency map of the workload is always empty:
    every candidate that is listed has the recent flag false, whatever the
    timestamps of the open tickets. *)
Theorem recent_never_set pid sids st counts recent st' :
  workload gw cfg pid sids st = (Ok (counts, recent), st') ->
  recent = []
  /\ (forall role_map u, c_recent (enrich role_map counts recent u) = false)
  /\ (forall task pname ids st1 cands st2,
        present gw cfg task pname counts recent ids st1 = (Ok cands, st2) ->
        Forall (fun c => c_recent c = false) cands).
Proof.
  intros Hw. apply Loop.workload_recent_empty in Hw as ->.
  split; [done|]. split; [done|].
  intros task pname ids st1 cands st2 Hp.
  destruct (present_records _ _ _ _ _ _ _ _ _ _ Hp) as (records & _ & ->).
  apply Forall_forall. intros c Hc.
  unfold rank in Hc. rewrite sorted_perm in Hc.
  by apply list_elem_of_fmap in Hc as (u & -> & _).
Qed.

End Preference.

End Engine.


(* ===================================================================== *)
(** * The two [main] functions                                            *)
(* ===================================================================== *)

Module Scripts.
Import Dotenv Extract.

(** What can escape a script: an exception of the modelled code, or an
    [OSError] of a file that cannot be opened. *)
Inductive error : Type :=
| Exn (e : exn)
| OSError.

(** The result of reading a file of the command line. *)
Inductive loaded (A : Type) : Type :=
| Loaded (a : A)
| Failed (e : error).
Arguments Loaded {A} a.
Arguments Failed {A} e.

(** How a script ends: [sys.exit(status)] or the normal end (status 0),
    or an exception that nothing catches. *)
Inductive outcome : Type :=
| Exit (status : Z)
| Uncaught (e : error).

(** The configuration object as [json.load] returns it; a key that the
    file does not have is [None]. *)
Record raw_config : Type := {
  raw_open_stage_names : option (list string);
  raw_todo_stage_names : option (list string);
  raw_preferred_developers : option (gmap string (list string));
  raw_developer_roles : option (gmap string string);
  raw_recent_days : option Z;
}.

(** [all([url, db, user, password])] on the values of [os.getenv]. *)
Definition all_set (values : list (option string)) : bool :=
  forallb (fun v => match v with Some s => nonempty s | None => false end) values.

Definition credentials (environ : gmap string string) : list (option string) :=
  [environ !! "ODOO_URL"; environ !! "ODOO_DB"; environ !! "ODOO_USER";
   environ !! "ODOO_PASSWORD"].

Definition missing_credentials : string :=
  "Missing ODOO_URL, ODOO_DB, ODOO_USER, or ODOO_PASSWORD env vars".

(** [xmlrpc_login]: [authenticate] gives the user id, 0 ([False]) when the
    credentials are rejected, or the message of the exception that the
    call raised. *)
Definition xmlrpc_login (authenticate : Z + string) : Z + string :=
  match authenticate with
  | inl uid => if uid =? 0 then inr "Authentication failed" else inl uid
  | inr msg => inr msg
  end.

End Scripts.

(** ** [main] of [assign_from_viber.py] *)

Module AssignMain.
Import AssignFromViber Dotenv Extract Scripts.

(** The remote system as [main] uses it: the login, the read of the
    logged-in user (name and login), and the calls of the loop. *)
Record Server (W : Type) : Type := {
  (** [common.authenticate(db, user, password, {})] at [url] *)
  authenticate : W -> string -> string -> string -> string -> Z + string;
  (** [read] of [res.users], [[uid]], fields [name] and [login] *)
  read_me : W -> Z -> res (list (string * string));
  models : Gateway W;
}.
Arguments authenticate {W} _ _ _ _ _ _.
Arguments read_me {W} _ _ _.
Arguments models {W} _.

(** What [main] reads besides the remote system and the replies typed at
    the prompts. *)
Record inputs : Type := {
  dry_run : bool;                        (** [--dry-run] *)
  environ : gmap string string;          (** the process environment *)
  dotenv : option (list string);         (** the file at [--dotenv] *)
  config : loaded raw_config;            (** [load_config(args.config)] *)
  input_file : option (loaded string);   (** the file at [--input]; [None]
                                             without the option and when
                                             the path is empty *)
  pasted : string;                       (** [sys.stdin.read()] of [prompt_multiline] *)
}.

(** Lines 146-149 of [main]: the keys of the configuration with their
    defaults. *)
Definition config_of (raw : raw_config) : AssignFromViber.config :=
  {| open_stage_names := default [] (raw_open_stage_names raw);
     preferred_developers := default ∅ (raw_preferred_developers raw);
     developer_roles := default ∅ (raw_developer_roles raw);
     recent_days := default 7 (raw_recent_days raw) |}.

Record result (W : Type) : Type := {
  outcome_of : outcome;
  final : St W;
  stderr : list string;
}.
Arguments outcome_of {W} _.
Arguments final {W} _.
Arguments stderr {W} _.

Section Main.
Context {W : Type} (srv : Server W).

(** Lines 142-298 of [main], after the login. *)
Definition logged_in (i : inputs) (raw : raw_config) (codes : list string) (uid : Z)
    (st : St W) : result W :=
  match read_me srv (world st) uid with
  | Raise e => {| outcome_of := Uncaught (Exn e); final := st; stderr := [] |}
  | Ok me =>
      let st :=
        match me with
        | (name, login) :: _ =>
            emit (Line ("Login OK: " +:+ name +:+ " (" +:+ login +:+ ")")) st
        | [] => st
        end in
      match run_codes (models srv) (config_of raw) (dry_run i) codes st with
      | (Ok _, st') => {| outcome_of := Exit 0; final := st'; stderr := [] |}
      | (Raise e, st') =>
          {| outcome_of := Uncaught (Exn e); final := st'; stderr := [] |}
      end
  end.

(** Lines 126-141 of [main], once the credentials are there. *)
Definition with_credentials (i : inputs) (raw : raw_config)
    (url db user password : string) (st : St W) : result W :=
  let text :=
    match input_file i with
    | Some (Loaded text) => Loaded (text, st)
    | Some (Failed e) => Failed e
    | None =>
        Loaded (pasted i, emit (Line "Paste Viber messages. End with Ctrl-D:") st)
    end in
  match text with
  | Failed e => {| outcome_of := Uncaught e; final := st; stderr := [] |}
  | Loaded (text, st) =>
      match extract_codes text with
      | [] =>
          {| outcome_of := Exit 1; final := st;
             stderr := ["No ticket codes found"] |}
      | codes =>
          match xmlrpc_login (authenticate srv (world st) url db user password) with
          | inr msg =>
              {| outcome_of := Exit 1; final := st;
                 stderr := ["Login failed: " +:+ msg] |}
          | inl uid => logged_in i raw codes uid st
          end
      end
  end.

(** [main], from [load_dotenv] on. *)
Definition main (i : inputs) (st : St W) : result W :=
  match load_dotenv (dotenv i) (environ i) with
  | Raise e => {| outcome_of := Uncaught (Exn e); final := st; stderr := [] |}
  | Ok environ' =>
      match config i with
      | Failed e => {| outcome_of := Uncaught e; final := st; stderr := [] |}
      | Loaded raw =>
          match credentials environ' with
          | [Some url; Some db; Some user; Some password] =>
              if all_set (credentials environ')
              then with_credentials i raw url db user password st
              else {| outcome_of := Exit 1; final := st;
                      stderr := [missing_credentials] |}
          | _ => {| outcome_of := Exit 1; final := st;
                    stderr := [missing_credentials] |}
          end
      end
  end.

End Main.

End AssignMain.

(** ** [main] of [daily_morning.py] *)

Module DigestMain.
Import DailyMorning Dotenv Scripts.

Record stage : Type := { s_id : Z; s_name : string }.

(** The remote system as the digest uses it. *)
Record Server (W : Type) : Type := {
  (** [common.authenticate(db, user, password, {})] at [url] *)
  authenticate : W -> string -> string -> string -> string -> Z + string;
  (** [project.task.type], domain [[("name", "in", names)]] *)
  search_stages : W -> list string -> res (list stage);
  (** [project.task] of the user in the stages, ordered by project and
      code *)
  search_my_tasks : W -> Z -> list Z -> res (list task);
}.
Arguments authenticate {W} _ _ _ _ _ _.
Arguments search_stages {W} _ _ _.
Arguments search_my_tasks {W} _ _ _.

Record inputs : Type := {
  environ : gmap string string;      (** the process environment *)
  dotenv : option (list string);     (** the file at [--dotenv] *)
  config : loaded raw_config;        (** [load_config(args.config)] *)
  by_ : string;                      (** [--by] *)
  date : option string;              (** [--date], if given *)
  today : Z * Z * Z;                 (** year, month, day of [datetime.now()] *)
}.

(** [datetime.strptime(s, "%Y-%m-%d")], kept as year, month, day. *)
Definition date_regex : Datetime.matcher (Z * Z * Z) :=
  Datetime.seq Datetime.re_Y (fun year =>
  Datetime.seq (Datetime.lit "-") (fun _ =>
  Datetime.seq Datetime.re_m (fun month =>
  Datetime.seq (Datetime.lit "-") (fun _ =>
  Datetime.seq Datetime.re_d (fun day => fun r => [((year, month, day), r)]))))).

Definition strptime_date (data_string : string) : res (Z * Z * Z) :=
  match date_regex data_string with
  | ((year, month, day), EmptyString) :: _ =>
      match Datetime.make year month day 0 0 0 with
      | Ok _ => Ok (year, month, day)
      | Raise e => Raise e
      end
  | _ => Raise ValueError
  end.

Definition month_abbr : list string :=
  ["Jan"; "Feb"; "Mar"; "Apr"; "May"; "Jun";
   "Jul"; "Aug"; "Sep"; "Oct"; "Nov"; "Dec"].

(** [dt.strftime("%d %b %Y")] in the C locale; the year is printed as
    the C library of Linux prints it, without padding. *)
Definition strftime (dt : Z * Z * Z) : string :=
  let '(year, month, day) := dt in
  (if day <? 10 then "0" +:+ str day else str day)
  +:+ " " +:+ nth (Z.to_nat (month - 1)) month_abbr "" +:+ " " +:+ str year.

Record result : Type := {
  outcome_of : outcome;
  stdout : list string;
  stderr : list string;
}.

Definition stop (o : outcome) (err : list string) : result :=
  {| outcome_of := o; stdout := []; stderr := err |}.

Section Main.
Context {W : Type} (srv : Server W).

(** Lines 79-127 of [main], after the login. *)
Definition logged_in (i : inputs) (raw : raw_config) (uid : Z) (w : W) : result :=
  match default [] (raw_todo_stage_names raw) with
  | [] => stop (Exit 1) ["Config missing todo_stage_names"]
  | stage_names =>
      match search_stages srv w stage_names with
      | Raise e => stop (Uncaught (Exn e)) []
      | Ok stages =>
          match s_id <$> stages with
          | [] => stop (Exit 1) ["No matching stages found"]
          | stage_ids =>
              match search_my_tasks srv w uid stage_ids with
              | Raise e => stop (Uncaught (Exn e)) []
              | Ok tasks =>
                  let dt :=
                    match date i with
                    | Some s => if nonempty s then strptime_date s else Ok (today i)
                    | None => Ok (today i)
                    end in
                  match dt with
                  | Raise e => stop (Uncaught (Exn e)) []
                  | Ok dt =>
                      {| outcome_of := Exit 0;
                         stdout := digest (strftime dt) (by_ i) tasks;
                         stderr := [] |}
                  end
              end
          end
      end
  end.

(** [main], from [load_dotenv] on. *)
Definition main (i : inputs) (w : W) : result :=
  match load_dotenv (dotenv i) (environ i) with
  | Raise e => stop (Uncaught (Exn e)) []
  | Ok environ' =>
      match config i with
      | Failed e => stop (Uncaught e) []
      | Loaded raw =>
          match credentials environ' with
          | [Some url; Some db; Some user; Some password] =>
              if all_set (credentials environ') then
                match xmlrpc_login (authenticate srv w url db user password) with
                | inr msg => stop (Exit 1) ["Login failed: " +:+ msg]
                | inl uid => logged_in i raw uid w
                end
              else stop (Exit 1) [missing_credentials]
          | _ => stop (Exit 1) [missing_credentials]
          end
      end
  end.

End Main.

End DigestMain.

Module AssignMainFacts.
Import AssignFromViber Dotenv Extract Scripts AssignMain.

(** The text that [main] scans: the input file when it is given, else
    what was pasted. *)
Definition text_read (i : inputs) : string :=
  match input_file i with
  | Some (Loaded text) => text
  | _ => pasted i
  end.

Section Facts.
Context {W : Type} (srv : Server W).
Implicit Types (i : inputs) (st : St W).

Lemma credentials_cases environ' :
  all_set (credentials environ') = true ->
  exists url db user password,
    credentials environ' = [Some url; Some db; Some user; Some password].
Proof.
  unfold credentials, all_set. cbn [forallb].
  destruct (environ' !! "ODOO_URL") as [url|]; [|done].
  destruct (environ' !! "ODOO_DB") as [db|]; [|by rewrite andb_false_r].
  destruct (environ' !! "ODOO_USER") as [user|]; [|by rewrite !andb_false_r].
  destruct (environ' !! "ODOO_PASSWORD") as [password|]; [|by rewrite !andb_false_r].
  intros _. by exists url, db, user, password.
Qed.



(** The state in which the login is attempted. *)
Definition before_login (i : inputs) (st : St W) : St W :=
  match input_file i with
  | Some _ => st
  | None => emit (Line "Paste Viber messages. End with Ctrl-D:") st
  end.

Lemma with_credentials_cases i raw url db user password st :
  let r := with_credentials srv i raw url db user password st in
  (exists e, input_file i = Some (Failed e)
             /\ r = {| outcome_of := Uncaught e; final := st; stderr := [] |})
  \/ (extract_codes (text_read i) = []
      /\ r = {| outcome_of := Exit 1; final := before_login i st;
                stderr := ["No ticket codes found"] |})
  \/ (exists msg,
        xmlrpc_login (authenticate srv (world st) url db user password) = inr msg
        /\ r = {| outcome_of := Exit 1; final := before_login i st;
                  stderr := ["Login failed: " +:+ msg] |})
  \/ (exists uid,
        extract_codes (text_read i) <> []
        /\ r = logged_in srv i raw (extract_codes (text_read i)) uid (before_login i st)).
Proof.
  unfold with_credentials, text_read, before_login.
  destruct (input_file i) as [[text|e]|].
  - destruct (extract_codes text) as [|c cs] eqn:Hc; [right; by left|].
    destruct (xmlrpc_login _) as [uid|msg] eqn:Hl.
    + right; right; right. by exists uid.
    + right; right; left. by exists msg.
  - left. by exists e.
  - destruct (extract_codes (pasted i)) as [|c cs] eqn:Hc; [right; by left|].
    cbn [emit world].
    destruct (xmlrpc_login _) as [uid|msg] eqn:Hl.
    + right; right; right. by exists uid.
    + right; right; left. by exists msg.
Qed.

Lemma logged_in_effect i raw codes uid st :
  let r := logged_in srv i raw codes uid st in
  outcome_of r <> Exit 1
  /\ stderr r = []
  /\ (exists ws, writes (final r) = writes st ++ ws
                 /\ (length ws <= length codes)%nat
                 /\ (dry_run i = true -> ws = [])).
Proof.
  unfold logged_in.
  destruct (read_me srv (world st) uid) as [me|e]; cbn.
  - set (st1 := match me with
                | [] => st
                | (name, login) :: _ =>
                    emit (Line ("Login OK: " +:+ name +:+ " (" +:+ login +:+ ")")) st
                end).
    assert (writes st1 = writes st) as Hw by (unfold st1; by destruct me as [|[? ?] ?]).
    destruct (Engine.run_codes_effect (models srv) (config_of raw) (dry_run i) codes st1)
      as [(ws & Hws & Hlen & Hdry) _].
    destruct (run_codes _ _ _ codes st1) as [[[]|e] st2]; cbn in *;
      (split; [done|]; split; [done|]; exists ws; by rewrite <- Hw).
  - split; [done|]. split; [done|]. exists []. rewrite app_nil_r. cbn [length].
    split; [done|]. split; [lia|done].
Qed.


(** X15. A run appends at most one write per extracted reference code to
    the log of writes, and none at all under [--dry-run]. *)
Theorem main_writes_bounded i st :
  exists ws,
    writes (final (main srv i st)) = writes st ++ ws
    /\ (length ws <= length (extract_codes (text_read i)))%nat
    /\ (dry_run i = true -> ws = []).
Proof.
  assert (exists ws, writes st = writes st ++ ws
                     /\ (length ws <= length (extract_codes (text_read i)))%nat
                     /\ (dry_run i = true -> ws = [])) as Hnone.
  { exists []. rewrite app_nil_r. cbn [length]. split; [done|]. split; [lia|done]. }
  unfold main.
  destruct (load_dotenv (dotenv i) (environ i)) as [environ'|e]; [|done].
  destruct (config i) as [raw|e]; [|done].
  destruct (credentials environ') as [|[url|] [|[db|] [|[user|] [|[password|] [|? ?]]]]];
    try done.
  destruct (all_set _); [|done].
  assert (writes (before_login i st) = writes st) as Hw
    by (unfold before_login; by destruct (input_file i)).
  destruct (with_credentials_cases i raw url db user password st)
    as [(e & _ & ->)|[[Hcodes ->]|[(msg & _ & ->)|(uid & _ & ->)]]]; cbn [final].
  - done.
  - by rewrite Hw.
  - by rewrite Hw.
  - destruct (logged_in_effect i raw (extract_codes (text_read i)) uid
                (before_login i st)) as (_ & _ & ws & Hws & Hlen & Hdry).
    exists ws. by rewrite Hws, Hw.
Qed.

(** The inputs with another dotenv file. *)
Definition with_dotenv (file : option (list string)) (i : inputs) : inputs :=
  {| dry_run := dry_run i; environ := environ i; dotenv := file;
     config := config i; input_file := input_file i; pasted := pasted i |}.

(** X16. The process environment wins over the dotenv file: when the
    four credentials are set in the process environment, a run with a
    dotenv file that loads is the run without any dotenv file. *)
Theorem environment_wins i st file environ' :
  all_set (credentials (environ i)) = true ->
  load_dotenv file (environ i) = Ok environ' ->
  main srv (with_dotenv file i) st = main srv (with_dotenv None i) st.
Proof.
  intros Hall Hload.
  destruct (credentials_cases _ Hall) as (url & db & user & password & Hcr).
  assert (credentials environ' = credentials (environ i)) as Hsame.
  { destruct file as [lines|]; [|by injection Hload as <-].
    cbn [load_dotenv] in Hload.
    pose proof (fun k => DotenvFacts.load_lines_lookup lines _ _ k Hload) as Hk.
    unfold credentials in *. injection Hcr as H1 H2 H3 H4.
    by rewrite (Hk "ODOO_URL"), (Hk "ODOO_DB"), (Hk "ODOO_USER"),
      (Hk "ODOO_PASSWORD"), H1, H2, H3, H4. }
  unfold main. cbn [with_dotenv dotenv environ config load_dotenv].
  rewrite Hload. destruct (config i) as [raw|e]; [|done].
  by rewrite Hsame.
Qed.

End Facts.

End AssignMainFacts.

Module DigestMainFacts.
Import DailyMorning Dotenv Scripts DigestMain PyFacts.

(** ** The size of the listing *)

Lemma count_one (hs : list string) (x : string) :
  NoDup hs -> x ∈ hs ->
  sum_list ((fun p => if decide (x = p) then 1%nat else 0%nat) <$> hs) = 1%nat.
Proof.
  induction hs as [|h hs IH]; intros Hnd Hin; [by apply elem_of_nil in Hin|].
  apply NoDup_cons in Hnd as [Hh Hnd]. cbn [fmap list_fmap sum_list].
  fold (fmap (M:=list) (fun p => if decide (x = p) then 1%nat else 0%nat) hs).
  destruct (decide (x = h)) as [->|Hne].
  - assert (sum_list ((fun p => if decide (h = p) then 1%nat else 0%nat) <$> hs) = 0%nat)
      as ->; [|done].
    clear IH Hin Hnd. induction hs as [|p hs IH]; [done|].
    apply not_elem_of_cons in Hh as [Hp Hh]. cbn [fmap list_fmap sum_list].
    rewrite decide_False by done. by apply IH.
  - apply elem_of_cons in Hin as [?|Hin]; [done|]. by rewrite IH.
Qed.

Lemma members_total (hs : list string) (tasks : list task) :
  NoDup hs -> (forall t, t ∈ tasks -> group_name t ∈ hs) ->
  sum_list ((fun p => length (Digest.members p tasks)) <$> hs) = length tasks.
Proof.
  intros Hnd. induction tasks as [|t l IH]; intros Hall.
  - unfold Digest.members. clear Hnd Hall.
    induction hs as [|h hs IH]; [done|]. cbn [fmap list_fmap sum_list]. by rewrite IH.
  - assert (sum_list ((fun p => length (Digest.members p (t :: l))) <$> hs)
            = (sum_list ((fun p => if decide (group_name t = p) then 1%nat else 0%nat)
                         <$> hs)
               + sum_list ((fun p => length (Digest.members p l)) <$> hs))%nat) as ->.
    { clear. induction hs as [|h hs IH]; [done|]. cbn [fmap list_fmap sum_list].
      fold (fmap (M:=list) (fun p => length (Digest.members p (t :: l))) hs).
      fold (fmap (M:=list) (fun p => length (Digest.members p l)) hs).
      fold (fmap (M:=list)
              (fun p => if decide (group_name t = p) then 1%nat else 0%nat) hs).
      rewrite IH. unfold Digest.members at 1. rewrite filter_cons.
      fold (Digest.members h l). unfold id.
      destruct (decide (group_name t = h)); cbn [length]; lia. }
    rewrite count_one; [|done|apply Hall; left].
    rewrite IH by (intros; apply Hall; by right). done.
Qed.

(** X17. The listing has one line per ticket, and a header line and a
    blank line per group, after its two leading lines: no ticket is lost
    or repeated by the grouping. *)
Theorem digest_size (date_str by_ : string) (tasks : list task) :
  length (digest date_str by_ tasks)
  = (2 + length tasks + 2 * length (headers (group tasks)))%nat.
Proof.
  unfold digest. cbn [app length].
  assert (forall hs, length (mjoin (group_lines (group tasks) <$> hs))
                     = (sum_list ((fun p => length (Digest.members p tasks)) <$> hs)
                        + 2 * length hs)%nat) as Hlen.
  { induction hs as [|h hs IH]; [done|].
    rewrite !fmap_cons.
    change (mjoin (group_lines (group tasks) h :: (group_lines (group tasks) <$> hs)))
      with (group_lines (group tasks) h ++ mjoin (group_lines (group tasks) <$> hs)).
    rewrite length_app, IH. cbn [sum_list length]. unfold group_lines at 1, id.
    rewrite Digest.group_get. cbn [length].
    rewrite length_app, length_fmap. cbn [length]. lia. }
  rewrite Hlen, members_total.
  - lia.
  - unfold headers. rewrite sorted_perm. apply Digest.group_keys_NoDup.
  - intros t Ht. unfold headers. rewrite sorted_perm.
    apply Digest.group_keys. by exists t.
Qed.

(** ** The script *)

Section Facts.
Context {W : Type} (srv : Server W).
Implicit Types (i : inputs) (w : W).







End Facts.

End DigestMainFacts.


(* ===================================================================== *)
(** * Sample sessions of the two scripts                                  *)
(* ===================================================================== *)

Module Sessions.
Import AssignFromViber Dotenv Scripts Memory.

(** A process environment with the four credentials. *)
Definition full_env : gmap string string :=
  {[ "ODOO_URL" := "https://odoo.example.org"; "ODOO_DB" := "prod";
     "ODOO_USER" := "ann"; "ODOO_PASSWORD" := "secret" ]}.

(** A configuration file with the stage names only. *)
Definition stages_only : raw_config :=
  {| raw_open_stage_names := Some ["In Progress"];
     raw_todo_stage_names := Some ["In Progress"];
     raw_preferred_developers := None;
     raw_developer_roles := None;
     raw_recent_days := None |}.


(** The remote system of the assignment script over the sample
    database: Ann's password is "secret". *)
Definition assign_server : AssignMain.Server db :=
  {| AssignMain.authenticate w url db user password :=
       if bool_decide (user = "ann" /\ password = "secret") then inl 5 else inl 0;
     AssignMain.read_me w uid :=
       Ok ((fun u => (u_name u, default "" (u_login u)))
             <$> filter (fun u => u_id u = uid) (db_users w));
     AssignMain.models := gateway |}.

Definition session (environ : gmap string string) (file : option (list string))
    : AssignMain.inputs :=
  {| AssignMain.dry_run := false;
     AssignMain.environ := environ;
     AssignMain.dotenv := file;
     AssignMain.config := Loaded stages_only;
     AssignMain.input_file := Some (Loaded "Ann, please take TSK-AB-1 today");
     AssignMain.pasted := "" |}.





Lemma missing_reported_witness :
  let st := start alpha [] in
  exists resolved,
    resolve_users gateway ["cy"; "ghost"; "cy"] st = (Ok resolved, st)
    /\ od_keys resolved ≡ₚ ["cy"; "ghost"]
    /\ missing_of resolved ≡ₚ ["ghost"].
Proof.
  intros st.
  destruct (Engine.missing_reported gateway ["cy"; "ghost"; "cy"] st)
    as (resolved & Hrun & Hnd & Hkeys & Hmnd & Hmiss).
  { intros ident _. eexists. reflexivity. }
  exists resolved. split; [exact Hrun|]. split.
  - apply NoDup_Permutation; [exact Hnd| |].
    { apply NoDup_cons. split; [|apply NoDup_singleton].
      rewrite list_elem_of_singleton. discriminate. }
    intros k. rewrite Hkeys, !elem_of_cons, !elem_of_nil. tauto.
  - apply NoDup_Permutation; [exact Hmnd|apply NoDup_singleton|].
    intros k. rewrite Hmiss, list_elem_of_singleton, !elem_of_cons, !elem_of_nil.
    split.
    + intros [[->|[->|[->|[]]]] Hs];
        first [reflexivity | vm_compute in Hs; discriminate Hs].
    + intros ->. split; [right; by left|vm_compute; reflexivity].
Defined.

Lemma recent_never_set_witness :
  let st := start alpha [] in
  workload gateway plain 42 [1] st = (Ok (Runs.counts0, []), st)
  /\ (exists cutoff,
        Datetime.sub_days (Datetime.now_utc noon) 7 = Ok cutoff
        /\ within_window cutoff "2026-11-03 10:00:00" = Raise TypeError)
  /\ c_recent (enrich ∅ Runs.counts0 [] ann) = false.
Proof.
  intros st.
  assert (workload gateway plain 42 [1] st = (Ok (Runs.counts0, []), st)) as H
    by (vm_compute; reflexivity).
  split; [exact H|]. split; [eexists; split; [reflexivity|vm_compute; reflexivity]|].
  destruct (Engine.recent_never_set gateway plain 42 [1] st Runs.counts0 [] st H)
    as (_ & Hflag & _).
  apply Hflag.
Defined.

Lemma preferred_fails_only_by_search_witness :
  pick_project_key (preferred_developers prefers_cy) 42 "Alpha" = Some "Alpha"
  /\ is_Some (preferred_developers prefers_cy !! "Alpha").
Proof.
  destruct (Engine.preferred_fails_only_by_search gateway prefers_cy 42 "Alpha")
    as (Hkey & Hname & _).
  assert (is_Some (preferred_developers prefers_cy !! "Alpha")) as H
    by (eexists; vm_compute; reflexivity).
  split; [exact (Hname H)|exact (Hkey "Alpha" (Hname H))].
Defined.


Lemma environment_wins_witness :
  let i := session full_env None in
  let file := Some ["ODOO_PASSWORD=guess"; "ODOO_URL=http://other"; "LANG=C"] in
  AssignMain.main assign_server (AssignMainFacts.with_dotenv file i) (start alpha ["y"])
  = AssignMain.main assign_server (AssignMainFacts.with_dotenv None i) (start alpha ["y"])
  /\ writes (AssignMain.final
               (AssignMain.main assign_server (AssignMainFacts.with_dotenv file i)
                  (start alpha ["y"]))) = [(100, 5)].
Proof.
  intros i file. split; [|vm_compute; reflexivity].
  apply (AssignMainFacts.environment_wins assign_server i (start alpha ["y"]) file
           (<[ "LANG" := "C" ]> full_env)); vm_compute; reflexivity.
Defined.



End Sessions.
